(** * Layoffs dashboard (streamlit.py): the loader and the derived views

    The development follows the script top to bottom.  A pandas DataFrame
    is a list of rows with one field per CSV column; a Series is the list
    of the cells of one column.  Conventions of the embedding:

    - the file is [None] when it is missing and [Some table] when pandas
      parses it into a table that has the nine columns, with numbers or
      missing cells in the three numeric columns; what [read_csv] and the
      column accesses raise on any other file (an empty or malformed
      file, a missing column, text in a numeric column) is outside the
      model;
    - a numeric cell is [option Q]: [None] is NaN (a missing value), a
      present value is a finite number and arithmetic on it is exact.
      The rounding of float64 is not modelled, nor is the wrap-around of
      int64: pandas reads a column of integers without a missing cell as
      int64, whose sums wrap around at 2^63.  The statements about the
      values of sums assume [sums_fit_int64], under which no sum of the
      column leaves the range of int64;
    - the quotient of line 185 is a [float64]: a finite number, an
      infinity or NaN;
    - a text cell is [option string], [None] being a missing value;
    - a Date cell is the text read from the file, a parsed timestamp, or
      NaT; [pd.to_datetime] and the [.dt] accessor work on these cells;
    - exceptions are the left summand of [result];
    - the date parser of pandas is a parameter [parse_date] of the
      sections below;
    - [Series.fillna(..., inplace=True)] on [df[col]] writes through to
      [df], as it does in the pandas versions the script was written for;
    - [sort_values] is called with its default [kind], quicksort, which
      is not stable.  numpy's argsort is a parameter, the class
      [NumpySort]: a sort of which only what every build of numpy
      guarantees is assumed, so that nothing is proved about the order it
      gives to equal values.  The insertion sort numpy runs on short
      arrays is one such sort and serves in the examples. *)

From Stdlib Require Import List String Ascii Bool ZArith QArith Qabs Lia Lqa.
From Stdlib Require Import Permutation Sorted OrderedTypeEx.
Import ListNotations.

Set Implicit Arguments.

(** ** Exceptions *)

Inductive exn : Set :=
| FileNotFoundError   (* pd.read_csv on a missing file *)
| ValueError          (* pd.to_datetime on a text it cannot parse *)
| AttributeError.     (* the .dt accessor on a column that holds text *)

Definition result (A : Type) : Type := (exn + A)%type.

Definition ret {A : Type} (a : A) : result A := inr a.
Definition raise {A : Type} (e : exn) : result A := inl e.

Definition bind {A B : Type} (m : result A) (k : A -> result B) : result B :=
  match m with
  | inl e => inl e
  | inr a => k a
  end.

Declare Scope result_scope.
Delimit Scope result_scope with result.
Notation "x <- m ;; k" := (bind m (fun x => k))
  (at level 61, m at next level, right associativity) : result_scope.
Open Scope result_scope.

Fixpoint mapM {A B : Type} (f : A -> result B) (l : list A) : result (list B) :=
  match l with
  | [] => ret []
  | a :: l' => b <- f a ;; bs <- mapM f l' ;; ret (b :: bs)
  end.

(** ** Cells, rows and frames *)

Record Timestamp : Set := mkTimestamp { year : Z; month : Z; day : Z }.

Inductive date_cell : Set :=
| DateStr (s : string)
| DateTime (t : Timestamp)
| NaT.

(** A float64 the script computes by a division. *)
Inductive float64 : Set :=
| Finite (q : Q)
| Inf (negative : bool)
| NaN.

Record Row : Set := mkRow {
  Company : option string;
  Industry : option string;
  Country : option string;
  Location_HQ : option string;
  Stage : option string;
  Date : date_cell;
  Laid_Off_Count : option Q;
  Funds_Raised : option Q;
  Percentage : option Q
}.

Definition DataFrame : Set := list Row.

(** [df[col] = values], one function per column the script assigns;
    the script only ever assigns a column as long as the frame. *)

Definition with_Laid_Off_Count (r : Row) (v : option Q) : Row :=
  mkRow (Company r) (Industry r) (Country r) (Location_HQ r) (Stage r)
        (Date r) v (Funds_Raised r) (Percentage r).

Definition with_Funds_Raised (r : Row) (v : option Q) : Row :=
  mkRow (Company r) (Industry r) (Country r) (Location_HQ r) (Stage r)
        (Date r) (Laid_Off_Count r) v (Percentage r).

Definition with_Percentage (r : Row) (v : option Q) : Row :=
  mkRow (Company r) (Industry r) (Country r) (Location_HQ r) (Stage r)
        (Date r) (Laid_Off_Count r) (Funds_Raised r) v.

Definition with_Date (r : Row) (d : date_cell) : Row :=
  mkRow (Company r) (Industry r) (Country r) (Location_HQ r) (Stage r)
        d (Laid_Off_Count r) (Funds_Raised r) (Percentage r).

Definition with_Country (r : Row) (c : option string) : Row :=
  mkRow (Company r) (Industry r) c (Location_HQ r) (Stage r)
        (Date r) (Laid_Off_Count r) (Funds_Raised r) (Percentage r).

Definition assign {V : Type} (upd : Row -> V -> Row)
                  (df : DataFrame) (col : list V) : DataFrame :=
  map (fun rv => upd (fst rv) (snd rv)) (combine df col).

(** The three numeric columns the loader repairs. *)

Inductive num_col : Set := ColLaidOff | ColFunds | ColPercentage.

Definition num_cell (c : num_col) (r : Row) : option Q :=
  match c with
  | ColLaidOff => Laid_Off_Count r
  | ColFunds => Funds_Raised r
  | ColPercentage => Percentage r
  end.

Definition with_num (c : num_col) : Row -> option Q -> Row :=
  match c with
  | ColLaidOff => with_Laid_Off_Count
  | ColFunds => with_Funds_Raised
  | ColPercentage => with_Percentage
  end.

(** ** Series operations of pandas used by the script *)

Definition dropna (col : list (option Q)) : list Q :=
  flat_map (fun c => match c with Some v => [v] | None => [] end) col.

Definition Qsum (l : list Q) : Q := fold_right Qplus 0%Q l.

(** [Series.sum()] skips NaN; the sum of no value is 0. *)
Definition series_sum (col : list (option Q)) : Q := Qsum (dropna col).

(** [Series.mean()] skips NaN; the mean of no value is NaN. *)
Definition mean (col : list (option Q)) : option Q :=
  match dropna col with
  | [] => None
  | vs => Some (Qsum vs / inject_Z (Z.of_nat (List.length vs)))%Q
  end.

(** [Series.fillna(value)]: a NaN [value] fills nothing. *)
Definition fill_cell (value : option Q) (c : option Q) : option Q :=
  match c with Some _ => c | None => value end.

Definition fillna (value : option Q) (col : list (option Q)) : list (option Q) :=
  map (fill_cell value) col.

(** [Series.replace({old: new})]: whole-cell match. *)
Definition replace_cell (old new : string) (c : option string) : option string :=
  match c with
  | Some s => if String.eqb s old then Some new else c
  | None => c
  end.

Definition replace (old new : string) (col : list (option string))
  : list (option string) :=
  map (replace_cell old new) col.

Definition eq_cell (c : option string) (s : option string) : bool :=
  match c, s with
  | Some a, Some b => String.eqb a b
  | _, _ => false
  end.

Definition isin_str (c : option string) (l : list string) : bool :=
  match c with
  | Some a => existsb (String.eqb a) l
  | None => false
  end.

(** [Series.unique()]: the distinct cells in order of first appearance. *)
Fixpoint unique_aux (seen : list (option string)) (col : list (option string))
  : list (option string) :=
  match col with
  | [] => []
  | c :: col' =>
      if existsb (fun d => match c, d with
                           | Some a, Some b => String.eqb a b
                           | None, None => true
                           | _, _ => false
                           end) seen
      then unique_aux seen col'
      else c :: unique_aux (c :: seen) col'
  end.

Definition unique (col : list (option string)) : list (option string) :=
  unique_aux [] col.

(** ** Dates *)

Section Dates.

Variable parse_date : string -> option Timestamp.

(** [pd.to_datetime] on one cell: text is parsed (an unparseable text
    raises), a timestamp and NaT are returned as they are. *)
Definition to_datetime_cell (c : date_cell) : result date_cell :=
  match c with
  | DateStr s =>
      match parse_date s with
      | Some t => ret (DateTime t)
      | None => raise ValueError
      end
  | DateTime t => ret (DateTime t)
  | NaT => ret NaT
  end.

Definition to_datetime (col : list date_cell) : result (list date_cell) :=
  mapM to_datetime_cell col.

End Dates.

(** [Series.dt.year]: the year of a timestamp, NaN for NaT; the accessor
    raises on a column that still holds text. *)
Definition dt_year_cell (c : date_cell) : result (option Z) :=
  match c with
  | DateStr _ => raise AttributeError
  | DateTime t => ret (Some (year t))
  | NaT => ret None
  end.

Definition dt_year (col : list date_cell) : result (list (option Z)) :=
  mapM dt_year_cell col.

(** ** The loader: load_data (lines 16-26) *)

(** [pd.read_csv]: the table of the file; a missing file raises.  The
    files of the model are the missing file and the files that parse
    into a table with the nine columns. *)
Definition read_csv (file : option DataFrame) : result DataFrame :=
  match file with
  | Some table => ret table
  | None => raise FileNotFoundError
  end.

(** [df[c].fillna(df[c].mean(), inplace=True)] *)
Definition fill_mean (c : num_col) (df : DataFrame) : DataFrame :=
  let col := map (num_cell c) df in
  assign (with_num c) df (fillna (mean col) col).

Definition normalize_country (df : DataFrame) : DataFrame :=
  assign with_Country df
         (replace "United States" "United States of America" (map Country df)).

Section Loader.

Variable parse_date : string -> option Timestamp.

Definition load_data (file : option DataFrame) : result DataFrame :=
  df <- read_csv file ;;
  let df := fill_mean ColLaidOff df in
  let df := fill_mean ColFunds df in
  let df := fill_mean ColPercentage df in
  dates <- to_datetime parse_date (map Date df) ;;
  let df := assign with_Date df dates in
  let df := normalize_country df in
  ret df.

End Loader.

(** ** Group keys *)

(** [groupby] returns its groups in ascending order of the key: text by
    code point, years by value, several key columns lexicographically. *)
Class Key (K : Type) : Type := { kcompare : K -> K -> comparison }.

#[export] Instance Key_string : Key string := { kcompare := String.compare }.

#[export] Instance Key_Z : Key Z := { kcompare := Z.compare }.

#[export] Instance Key_pair {A B : Type} `{Key A} `{Key B} : Key (A * B) :=
  { kcompare p q :=
      match kcompare (fst p) (fst q) with
      | Eq => kcompare (snd p) (snd q)
      | c => c
      end }.

Definition klt {K : Type} `{Key K} (a b : K) : Prop := kcompare a b = Lt.

(** ** groupby(...)[value].sum(), sort_values, head, reset_index *)

(** A Series of sums: index label (the group key) and value. *)
Definition Series (K : Type) : Type := list (K * Q).

(** A derived DataFrame: index label and the row's cells. *)
Definition Frame (R : Type) : Type := list (nat * R).

Fixpoint agg_add {K : Type} `{Key K} (k : K) (v : Q) (acc : Series K) : Series K :=
  match acc with
  | [] => [(k, v)]
  | (k', s) :: acc' =>
      match kcompare k k' with
      | Lt => (k, v) :: acc
      | Eq => (k', (s + v)%Q) :: acc'
      | Gt => (k', s) :: agg_add k v acc'
      end
  end.

(** Rows whose key is missing are dropped; a missing value adds nothing
    to the sum of its group.  The sum is the exact one: on an int64
    column pandas has it modulo 2^64, which is the same number when the
    sum lies in the range of int64 (see [sums_fit_int64] below). *)
Definition groupby_sum {K : Type} `{Key K}
           (keys : list (option K)) (vals : list (option Q)) : Series K :=
  fold_left (fun acc kv =>
               match fst kv with
               | Some k => agg_add k (match snd kv with Some v => v | None => 0%Q end) acc
               | None => acc
               end)
            (combine keys vals) [].

Definition head {A : Type} (n : nat) (l : list A) : list A := firstn n l.

Definition reset_index {K : Type} (s : Series K) : Frame (K * Q) :=
  combine (seq 0 (List.length s)) s.

(** [df[mask]] *)
Definition mask_rows {A : Type} (df : list A) (mask : list bool) : list A :=
  map fst (filter snd (combine df mask)).

(** The group key and the Laid_Off_Count cell of a row of a derived frame. *)
Definition key_of {K : Type} (r : nat * (K * Q)) : K := fst (snd r).
Definition value_of {K : Type} (r : nat * (K * Q)) : Q := snd (snd r).

(** [arr[indexer]]: the rows at the positions of [indexer], in that
    order.  The indexers of the script come from argsort and hold no
    position past the end of the table (numpy raises IndexError on one;
    the model skips it). *)
Definition take {A : Type} (l : list A) (indexer : list nat) : list A :=
  flat_map (fun i => match nth_error l i with Some a => [a] | None => [] end) indexer.

(** [numpy.argsort(kind='quicksort')], the sort behind [sort_values]
    with its default [kind].  It is not stable: numpy promises no order
    among equal values, and the order it gives them depends on the
    length of the array and on the build of numpy.  What every build
    guarantees: the result lists every position once, the values at
    these positions are in ascending order, and the result depends on
    the values only (two fractions of the same value stand for the same
    number of the array). *)
Class NumpySort : Type := {
  argsort : list Q -> list nat;
  argsort_perm : forall vals,
      Permutation (argsort vals) (seq 0 (List.length vals));
  argsort_sorted : forall vals,
      StronglySorted Qle (take vals (argsort vals));
  argsort_values : forall vals vals',
      Forall2 Qeq vals vals' -> argsort vals = argsort vals'
}.

(** The sort of numpy on a short array, an insertion sort: an element
    moves left past the strictly greater ones only. *)
Fixpoint insert_asc {A : Type} (val : A -> Q) (x : A) (l : list A) : list A :=
  match l with
  | [] => [x]
  | y :: l' =>
      match (val x ?= val y)%Q with
      | Lt => x :: l
      | _ => y :: insert_asc val x l'
      end
  end.

Definition insertion_sort {A : Type} (val : A -> Q) (l : list A) : list A :=
  fold_left (fun acc x => insert_asc val x acc) l [].

Definition insertion_argsort (vals : list Q) : list nat :=
  map fst (insertion_sort snd (combine (seq 0 (List.length vals)) vals)).

(** ** The views, in the order of the script *)

Definition country_options : list string := ["United States of America"; "India"]%string.

Section Views.

Context `{np : NumpySort}.

(** [sort_values(ascending=False)]: pandas reverses the rows, takes them
    in the order argsort gives for their values, and reverses the
    outcome. *)
Definition sort_values_desc {A : Type} (val : A -> Q) (l : list A) : list A :=
  rev (take (rev l) (argsort (rev (map val l)))).

(** line 47 *)
Definition df_filtered (df : DataFrame) (industry_filter country_filter : option string)
  : DataFrame :=
  mask_rows df (map (fun r => eq_cell (Industry r) industry_filter
                              && eq_cell (Country r) country_filter) df).

(** lines 53-59 *)
Definition top_countries (df : DataFrame) : Frame (string * Q) :=
  reset_index
    (head 5 (sort_values_desc snd
               (groupby_sum (map Country df) (map Laid_Off_Count df)))).

(** lines 75-78 *)
Definition country_layoffs (df : DataFrame) : Frame (string * Q) :=
  let country_layoffs :=
    reset_index (groupby_sum (map Country df) (map Laid_Off_Count df)) in
  sort_values_desc value_of country_layoffs.

Definition isin_year (y : option Z) (l : list Z) : bool :=
  match y with
  | Some z => existsb (Z.eqb z) l
  | None => false
  end.

Definition year_ge (y : option Z) (n : Z) : bool :=
  match y with
  | Some z => (n <=? z)%Z
  | None => false
  end.

(** line 118 *)
Definition df_recent_years (df : DataFrame) : result DataFrame :=
  years <- dt_year (map Date df) ;;
  ret (mask_rows df
         (map (fun yr => isin_year (fst yr) [2022; 2023]%Z
                         && negb (eq_cell (Industry (snd yr)) (Some "Other"%string)))
              (combine years df))).

(** lines 121-127 *)
Definition top_industries_recent (df_recent_years : DataFrame) : Frame (string * Q) :=
  reset_index
    (head 5 (sort_values_desc snd
               (groupby_sum (map Industry df_recent_years)
                            (map Laid_Off_Count df_recent_years)))).

(** lines 151-152 *)
Definition df_time_series (df_filtered : DataFrame) : result (Frame (Z * Q)) :=
  years <- dt_year (map Date df_filtered) ;;
  ret (reset_index (groupby_sum years (map Laid_Off_Count df_filtered))).

(** line 169 *)
Definition top_companies (df : DataFrame) : Frame (string * Q) :=
  reset_index
    (head 10 (sort_values_desc snd
                (groupby_sum (map Company df) (map Laid_Off_Count df)))).

(** line 172 *)
Definition df_filtered_2020 (df : DataFrame) : result DataFrame :=
  years <- dt_year (map Date df) ;;
  ret (mask_rows df (map (fun y => year_ge y 2020) years)).

Definition key4 (r : Row) : option (string * string * string * string) :=
  match Company r, Industry r, Location_HQ r, Country r with
  | Some a, Some b, Some c, Some d => Some (a, b, c, d)
  | _, _, _, _ => None
  end.

Definition key2 (r : Row) : option (string * string) :=
  match Company r, Industry r with
  | Some a, Some b => Some (a, b)
  | _, _ => None
  end.

(** [x / total * 100], a division of float64: 0/0 is NaN and x/0 is
    the infinity of the sign of x. *)
Definition percent_of (total x : Q) : float64 :=
  if Qeq_bool total 0 then
    match (x ?= 0)%Q with
    | Eq => NaN
    | Lt => Inf true
    | Gt => Inf false
    end
  else Finite (x / total * 100)%Q.

(** lines 175-185: the last component of a row is the appended
    Percentage column. *)
Definition top_companies_data (df_filtered : DataFrame)
  : Frame ((string * string * string * string) * Q * float64) :=
  let top_companies_data :=
    reset_index (groupby_sum (map key4 df_filtered) (map Laid_Off_Count df_filtered)) in
  let top_companies_data := head 50 (sort_values_desc value_of top_companies_data) in
  let total := Qsum (map value_of top_companies_data) in
  map (fun r => (fst r, (snd r, percent_of total (value_of r)))) top_companies_data.

(** lines 237-241; [df_filtered] is the frame of line 172 *)
Definition top_companies_filtered (df_filtered : DataFrame) (industry_filter : option string)
  : Frame ((string * string) * Q) :=
  let top_companies_filtered :=
    mask_rows df_filtered (map (fun r => eq_cell (Industry r) industry_filter) df_filtered) in
  let top_companies_filtered :=
    reset_index (groupby_sum (map key2 top_companies_filtered)
                             (map Laid_Off_Count top_companies_filtered)) in
  head 10 (sort_values_desc value_of top_companies_filtered).

Definition valid_stages : list string :=
  ["Acquired"; "Post-IPO"; "Private Equity"; "Seed"]%string.

(** lines 286-290 *)
Definition stage_layoffs (df : DataFrame) : Frame (string * Q) :=
  let stage_layoffs :=
    mask_rows df (map (fun r => isin_str (Stage r) valid_stages) df) in
  reset_index (groupby_sum (map Stage stage_layoffs) (map Laid_Off_Count stage_layoffs)).

End Views.

(** ** The script *)

(** The variables of the module when the script has run. *)
Module Env.
Record t : Type := mk {
  df : DataFrame;
  industry_filter : option string;
  country_filter : option string;
  top_countries : Frame (string * Q);
  country_layoffs : Frame (string * Q);
  df_recent_years : DataFrame;
  top_industries_recent : Frame (string * Q);
  df_time_series : Frame (Z * Q);
  top_companies : Frame (string * Q);
  df_filtered : DataFrame;
  top_companies_data : Frame ((string * string * string * string) * Q * float64);
  top_companies_filtered : Frame ((string * string) * Q);
  stage_layoffs : Frame (string * Q)
}.
End Env.

(** [st.selectbox]: the option the user points at; [None] when there is
    no such option (an empty list of options). *)
Definition selectbox {A : Type} (options : list A) (choice : nat) : option A :=
  nth_error options choice.

Record Widgets : Set := mkWidgets { pick_industry : nat; pick_country : nat }.

Section Script.

Context `{np : NumpySort}.
Variable parse_date : string -> option Timestamp.

(** Lines 47-317 for given selections of the two select boxes. *)
Definition dashboard (df : DataFrame) (industry_filter country_filter : option string)
  : result Env.t :=
  let df_filtered_47 := df_filtered df industry_filter country_filter in
  let top_countries := top_countries df in
  let country_layoffs := country_layoffs df in
  df_recent_years <- df_recent_years df ;;
  let top_industries_recent := top_industries_recent df_recent_years in
  df_time_series <- df_time_series df_filtered_47 ;;
  let top_companies := top_companies df in
  dates <- to_datetime parse_date (map Date df) ;;      (* line 171 *)
  let df := assign with_Date df dates in
  df_filtered_172 <- df_filtered_2020 df ;;
  let top_companies_data := top_companies_data df_filtered_172 in
  let top_companies_filtered := top_companies_filtered df_filtered_172 industry_filter in
  let stage_layoffs := stage_layoffs df in
  ret (Env.mk df industry_filter country_filter top_countries country_layoffs
              df_recent_years top_industries_recent df_time_series top_companies
              df_filtered_172 top_companies_data top_companies_filtered stage_layoffs).

(** [@st.cache] on [load_data]: the first call stores the frame it
    returns, later calls return the stored frame itself. *)
Definition cached_load_data (memo : option DataFrame) (file : option DataFrame)
  : result (DataFrame * option DataFrame) :=
  match memo with
  | Some df => ret (df, memo)
  | None => df <- load_data parse_date file ;; ret (df, Some df)
  end.

(** One run of the script.  [df] and the cache entry are the same
    object, so the cache holds what line 171 leaves in [df]. *)
Definition run (file : option DataFrame) (w : Widgets) (memo : option DataFrame)
  : result (Env.t * option DataFrame) :=
  loaded <- cached_load_data memo file ;;
  let df := fst loaded in
  let industry_filter :=
    match selectbox (unique (map Industry df)) (pick_industry w) with
    | Some c => c
    | None => None
    end in
  let country_filter := selectbox country_options (pick_country w) in
  env <- dashboard df industry_filter country_filter ;;
  ret (env, Some (Env.df env)).

(** The reruns of a session, one per state of the widgets; a run that
    raises ends it. *)
Fixpoint session (file : option DataFrame) (ws : list Widgets) (memo : option DataFrame)
  : result (list Env.t * option DataFrame) :=
  match ws with
  | [] => ret ([], memo)
  | w :: ws' =>
      r <- run file w memo ;;
      rest <- session file ws' (snd r) ;;
      ret (fst r :: fst rest, snd rest)
  end.

End Script.

(** A parser for dates written YYYY-MM-DD, used in the examples. *)
Definition digit (c : ascii) : option Z :=
  let n := (Z.of_N (N_of_ascii c) - 48)%Z in
  if ((0 <=? n) && (n <=? 9))%Z then Some n else None.

Fixpoint number (acc : Z) (s : list ascii) : option Z :=
  match s with
  | [] => Some acc
  | c :: s' =>
      match digit c with
      | Some d => number (10 * acc + d)%Z s'
      | None => None
      end
  end.

Definition iso_date (s : string) : option Timestamp :=
  match list_ascii_of_string s with
  | [y1; y2; y3; y4; d1; m1; m2; d2; a1; a2] =>
      if (Ascii.eqb d1 "-" && Ascii.eqb d2 "-")%bool then
        match number 0 [y1; y2; y3; y4], number 0 [m1; m2], number 0 [a1; a2] with
        | Some y, Some m, Some d =>
            if ((1 <=? m) && (m <=? 12) && (1 <=? d) && (d <=? 31))%Z
            then Some (mkTimestamp y m d) else None
        | _, _, _ => None
        end
      else None
  | _ => None
  end.

(** ** What the loader does to one record *)

Definition same_text_fields (r r' : Row) : Prop :=
  Company r' = Company r /\ Industry r' = Industry r /\
  Location_HQ r' = Location_HQ r /\ Stage r' = Stage r.

(** [r'] is the record the loader returns for the record [r] of the
    table [raw]. *)
Definition loaded_row (parse_date : string -> option Timestamp)
           (raw : DataFrame) (r r' : Row) : Prop :=
  to_datetime_cell parse_date (Date r) = inr (Date r') /\
  Country r' = replace_cell "United States" "United States of America" (Country r) /\
  (forall c, num_cell c r' = fill_cell (mean (map (num_cell c) raw)) (num_cell c r)) /\
  same_text_fields r r'.

(** Every Date cell is a timestamp or NaT. *)
Definition date_parsed (c : date_cell) : bool :=
  match c with
  | DateStr _ => false
  | _ => true
  end.

Definition dates_parsed (df : DataFrame) : Prop :=
  Forall (fun r => date_parsed (Date r) = true) df.

Definition year_of (c : date_cell) : option Z :=
  match c with
  | DateTime t => Some (year t)
  | _ => None
  end.

(** The three fills together, as a function of the record and of the
    three means of the table read from the file. *)
Definition filled (raw : DataFrame) (r : Row) : Row :=
  mkRow (Company r) (Industry r) (Country r) (Location_HQ r) (Stage r) (Date r)
        (fill_cell (mean (map Laid_Off_Count raw)) (Laid_Off_Count r))
        (fill_cell (mean (map Funds_Raised raw)) (Funds_Raised r))
        (fill_cell (mean (map Percentage raw)) (Percentage r)).

(** ** Sorted views *)

Definition ascending {V : Type} (val : V -> Q) (l : list V) : Prop :=
  StronglySorted (fun a b => (val a <= val b)%Q) l.

Definition descending {V : Type} (val : V -> Q) (view : list V) : Prop :=
  StronglySorted (fun a b => (val b <= val a)%Q) view.

Definition keys_ascending {K V : Type} `{Key K} (key : V -> K) (l : list V) : Prop :=
  StronglySorted (fun a b => klt (key a) (key b)) l.

(** The comparison of a key type is a strict total order. *)
Class KeyOk (K : Type) `{Key K} : Prop := {
  kcompare_eq : forall a b : K, kcompare a b = Eq <-> a = b;
  kcompare_antisym : forall a b : K, kcompare b a = CompOpp (kcompare a b);
  kcompare_trans : forall a b c : K,
      kcompare a b = Lt -> kcompare b c = Lt -> kcompare a c = Lt
}.
Arguments KeyOk K {_}.



(** What lines 118, 151 and 172 compute when every Date cell is parsed. *)
Definition recent_years_rows (df : DataFrame) : DataFrame :=
  filter (fun r => isin_year (year_of (Date r)) [2022; 2023]%Z
                   && negb (eq_cell (Industry r) (Some "Other"%string))) df.

Definition yearly_sums (df_filtered : DataFrame) : Frame (Z * Q) :=
  reset_index (groupby_sum (map (fun r => year_of (Date r)) df_filtered)
                           (map Laid_Off_Count df_filtered)).

Definition since_2020_rows (df : DataFrame) : DataFrame :=
  filter (fun r => year_ge (year_of (Date r)) 2020) df.

Definition data_count {K : Type} (r : nat * (K * Q * float64)) : Q := snd (fst (snd r)).
Definition data_percentage {K : Type} (r : nat * (K * Q * float64)) : float64 :=
  snd (snd r).

(** [Series.sum()] of a float64 column: NaN cells are skipped; an
    infinity absorbs the finite numbers, and the two infinities add up
    to NaN. *)
Definition float_add (a b : float64) : float64 :=
  match a, b with
  | NaN, _ | _, NaN => NaN
  | Finite x, Finite y => Finite (x + y)%Q
  | Inf s, Finite _ | Finite _, Inf s => Inf s
  | Inf s, Inf s' => if Bool.eqb s s' then Inf s else NaN
  end.

Definition float_sum (col : list float64) : float64 :=
  fold_left float_add
            (filter (fun c => match c with NaN => false | _ => true end) col)
            (Finite 0).

(** No sum of cells of the column leaves the range of int64: the
    absolute values of the present cells add up to less than 2^63. *)
Definition sums_fit_int64 (col : list (option Q)) : Prop :=
  (Qsum (map Qabs (dropna col)) < inject_Z (2 ^ 63))%Q.

(** A number inside the range of int64. *)
Definition fits_int64 (q : Q) : Prop := (Qabs q < inject_Z (2 ^ 63))%Q.

(** ** Example tables *)

Definition layoff (company industry country location stage date : string)
           (count funds percentage : option Q) : Row :=
  mkRow (Some company) (Some industry) (Some country) (Some location) (Some stage)
        (DateStr date) count funds percentage.

Definition loaded (file : DataFrame) : DataFrame :=
  match load_data iso_date (Some file) with
  | inr df => df
  | inl _ => []
  end.

(** Two countries with equal layoffs, India first in the file. *)
Definition ties_file : DataFrame :=
  [ layoff "Initech" "Retail" "India" "Bengaluru" "Seed" "2021-03-01"
           (Some 10%Q) (Some 5%Q) (Some (1 # 2)%Q);
    layoff "Globex" "Retail" "Brazil" "Sao Paulo" "Seed" "2022-07-15"
           (Some 10%Q) (Some 7%Q) (Some (1 # 4)%Q) ]%string.

Definition ties_df : DataFrame := Eval vm_compute in loaded ties_file.

(** One Laid_Off_Count is missing; the present ones are 10 and 20. *)
Definition sample_file : DataFrame :=
  [ layoff "Initech" "Retail" "India" "Bengaluru" "Seed" "2021-03-01"
           (Some 10%Q) (Some 5%Q) (Some (1 # 2)%Q);
    layoff "Globex" "Finance" "Brazil" "Sao Paulo" "Post-IPO" "2022-07-15"
           None (Some 7%Q) (Some (1 # 4)%Q);
    layoff "Hooli" "Retail" "United States" "SF Bay Area" "Acquired" "2019-11-30"
           (Some 20%Q) (Some 9%Q) (Some (1 # 5)%Q) ]%string.

Definition sample_df : DataFrame := Eval vm_compute in loaded sample_file.

(** No Laid_Off_Count at all. *)
Definition missing_file : DataFrame :=
  [ layoff "Initech" "Retail" "India" "Bengaluru" "Seed" "2021-03-01"
           None (Some 5%Q) (Some (1 # 2)%Q);
    layoff "Globex" "Finance" "Brazil" "Sao Paulo" "Post-IPO" "2022-07-15"
           None (Some 7%Q) (Some (1 # 4)%Q) ]%string.

Definition missing_df : DataFrame := Eval vm_compute in loaded missing_file.

(** One record, with no layoff. *)
Definition zero_file : DataFrame :=
  [ layoff "Initech" "Retail" "India" "Bengaluru" "Seed" "2021-03-01"
           (Some 0%Q) (Some 5%Q) (Some (1 # 2)%Q) ]%string.

(** Retail in the United States and in Canada, none in India. *)
Definition north_file : DataFrame :=
  [ layoff "Acme" "Retail" "United States" "SF Bay Area" "Post-IPO" "2021-03-01"
           (Some 10%Q) (Some 5%Q) (Some (1 # 2)%Q);
    layoff "Maple" "Retail" "Canada" "Toronto" "Seed" "2022-07-15"
           (Some 4%Q) (Some 7%Q) (Some (1 # 4)%Q) ]%string.

Definition north_df : DataFrame := Eval vm_compute in loaded north_file.

(** ** Notions used in the further properties *)

(** [pd.to_datetime] accepts the cell. *)
Definition parseable (parse_date : string -> option Timestamp) (c : date_cell) : bool :=
  match c with
  | DateStr s => match parse_date s with Some _ => true | None => false end
  | _ => true
  end.

(** The number of missing cells of a column. *)
Definition count_missing (col : list (option Q)) : nat :=
  List.length (filter (fun c => match c with None => true | Some _ => false end) col).

(** The fold of [groupby_sum], and what it computes for one key. *)
Definition group_step {K : Type} `{Key K}
           (acc : Series K) (kv : option K * option Q) : Series K :=
  match fst kv with
  | Some k => agg_add k (match snd kv with Some v => v | None => 0%Q end) acc
  | None => acc
  end.

Definition keqb {K : Type} `{Key K} (a b : K) : bool :=
  match kcompare a b with Eq => true | _ => false end.

Definition is_key {K : Type} `{Key K} (k : K) (c : option K) : bool :=
  match c with
  | Some k' => keqb k k'
  | None => false
  end.

Definition has_key {K : Type} (c : option K) : bool :=
  match c with Some _ => true | None => false end.

Fixpoint find_sum {K : Type} `{Key K} (k : K) (s : Series K) : option Q :=
  match s with
  | [] => None
  | (k', v) :: s' => if keqb k k' then Some v else find_sum k s'
  end.

Definition nan_to_zero (c : option Q) : Q :=
  match c with Some v => v | None => 0%Q end.

Definition group_total {K : Type} `{Key K} (k : K) (kvs : list (option K * option Q)) : Q :=
  Qsum (map (fun kv => nan_to_zero (snd kv)) (filter (fun kv => is_key k (fst kv)) kvs)).

(** A numeric cell that is missing or not negative. *)
Definition nonneg_cell (c : option Q) : Prop :=
  match c with Some v => (0 <= v)%Q | None => True end.

(** The Date cell is a timestamp of the year [y]. *)
Definition year_is (y : Z) (c : date_cell) : bool :=
  match year_of c with Some z => Z.eqb z y | None => false end.

(** Two rows of derived tables with the same index label and key and
    with equal values. *)
Definition same_row {K : Type} (a b : nat * (K * Q)) : Prop :=
  fst a = fst b /\ key_of a = key_of b /\ (value_of a == value_of b)%Q.

(** * Properties *)

(** ** The error monad and column assignment *)

Lemma bind_inr {A B : Type} (m : result A) (k : A -> result B) (b : B) :
  bind m k = inr b -> exists a, m = inr a /\ k a = inr b.
Proof.
  destruct m as [e | a]; simpl; intros E; [discriminate | eauto].
Qed.

Lemma mapM_Forall2 {A B : Type} (f : A -> result B) (l : list A) (bs : list B) :
  mapM f l = inr bs -> Forall2 (fun a b => f a = inr b) l bs.
Proof.
  revert bs; induction l as [| a l IH]; simpl; intros bs E.
  - injection E as <-. constructor.
  - apply bind_inr in E as (b & Eb & E).
    apply bind_inr in E as (bs' & Ebs & E).
    injection E as <-. constructor; auto.
Qed.

Lemma mapM_pure {A B : Type} (f : A -> result B) (g : A -> B) (l : list A) :
  Forall (fun a => f a = inr (g a)) l -> mapM f l = inr (map g l).
Proof.
  induction 1 as [| a l Ha _ IH]; simpl; [reflexivity |].
  rewrite Ha, IH. reflexivity.
Qed.

Lemma assign_map {V : Type} (upd : Row -> V -> Row) (f : Row -> V) (df : DataFrame) :
  assign upd df (map f df) = map (fun r => upd r (f r)) df.
Proof.
  unfold assign. induction df as [| r df IH]; simpl; [reflexivity |].
  now rewrite IH.
Qed.

Lemma assign_Forall2 {V : Type} (upd : Row -> V -> Row) (P : Row -> V -> Prop)
      (df : DataFrame) (col : list V) :
  Forall2 P df col ->
  Forall2 (fun r r' => exists v, P r v /\ r' = upd r v) df (assign upd df col).
Proof.
  unfold assign. induction 1 as [| r v df col Hrv _ IH]; simpl; constructor; eauto.
Qed.

Lemma Forall2_map_l {A B C : Type} (f : A -> B) (P : B -> C -> Prop) l l' :
  Forall2 P (map f l) l' <-> Forall2 (fun a c => P (f a) c) l l'.
Proof.
  split.
  - revert l'; induction l as [| a l IH]; intros l' H; inversion H; subst;
      constructor; auto.
  - induction 1; simpl; constructor; auto.
Qed.

Lemma Forall2_map_r {A B C : Type} (f : B -> C) (P : A -> C -> Prop) l l' :
  Forall2 P l (map f l') <-> Forall2 (fun a b => P a (f b)) l l'.
Proof.
  split.
  - revert l; induction l' as [| b l' IH]; intros l H; inversion H; subst;
      constructor; auto.
  - induction 1; simpl; constructor; auto.
Qed.

Lemma Forall2_impl' {A B : Type} (P Q : A -> B -> Prop) l l' :
  (forall a b, P a b -> Q a b) -> Forall2 P l l' -> Forall2 Q l l'.
Proof. intros HPQ; induction 1; constructor; auto. Qed.

Lemma Forall2_diag {A : Type} (P : A -> A -> Prop) (l : list A) :
  (forall a, P a a) -> Forall2 P l l.
Proof. intros HP; induction l; constructor; auto. Qed.

Lemma Forall2_Forall_r {A B : Type} (P : A -> B -> Prop) (Q : B -> Prop) l l' :
  Forall2 P l l' -> (forall a b, In a l -> P a b -> Q b) -> Forall Q l'.
Proof.
  induction 1 as [| a b l l' Hab _ IH]; intros HQ; constructor.
  - apply (HQ a b); simpl; auto.
  - apply IH. intros a' b' Hin. apply HQ. simpl; auto.
Qed.

(** ** The mean *)

Lemma dropna_nil_iff (col : list (option Q)) :
  dropna col = [] <-> Forall (fun c => c = None) col.
Proof.
  induction col as [| [v |] col IH]; simpl.
  - split; auto.
  - split; [discriminate | intros H; inversion H; discriminate].
  - rewrite IH. split; [constructor; auto | intros H; now inversion H].
Qed.

Lemma In_dropna (col : list (option Q)) (v : Q) :
  In v (dropna col) <-> In (Some v) col.
Proof.
  unfold dropna. rewrite in_flat_map. split.
  - intros ([w |] & Hin & Hv); simpl in Hv; [| contradiction].
    destruct Hv as [-> | []]. exact Hin.
  - intros Hin. exists (Some v). simpl. auto.
Qed.

(** The mean of a column with a present value is the sum of its present
    values over their number. *)
Lemma mean_spec (col : list (option Q)) (v : Q) :
  In (Some v) col ->
  exists m, mean col = Some m /\
            (m * inject_Z (Z.of_nat (List.length (dropna col))) == Qsum (dropna col))%Q.
Proof.
  intros Hin. apply In_dropna in Hin. unfold mean.
  destruct (dropna col) as [| w vs] eqn:E; [contradiction |].
  eexists; split; [reflexivity |].
  set (n := inject_Z (Z.of_nat (List.length (w :: vs)))).
  assert (Hn : ~ (n == 0)%Q).
  { unfold n, Qeq; simpl. lia. }
  field. exact Hn.
Qed.

Lemma mean_all_missing (col : list (option Q)) :
  Forall (fun c => c = None) col -> mean col = None.
Proof.
  intros H. apply dropna_nil_iff in H. unfold mean. now rewrite H.
Qed.

(** ** load_data, record by record *)

Lemma fill_mean_map (c : num_col) (df : DataFrame) :
  fill_mean c df =
  map (fun r => with_num c r (fill_cell (mean (map (num_cell c) df)) (num_cell c r))) df.
Proof.
  unfold fill_mean, fillna. rewrite map_map. apply assign_map.
Qed.

Lemma num_cell_with_num_same (c : num_col) (r : Row) (v : option Q) :
  num_cell c (with_num c r v) = v.
Proof. destruct c; reflexivity. Qed.

Lemma num_cell_with_num_other (c c' : num_col) (r : Row) (v : option Q) :
  c <> c' -> num_cell c' (with_num c r v) = num_cell c' r.
Proof. destruct c, c'; intros H; try reflexivity; contradiction. Qed.

Lemma fill_mean_other_column (c c' : num_col) (df : DataFrame) :
  c <> c' -> map (num_cell c') (fill_mean c df) = map (num_cell c') df.
Proof.
  intros H. rewrite fill_mean_map, map_map. apply map_ext.
  intros r. now apply num_cell_with_num_other.
Qed.

Lemma fill_means_map (raw : DataFrame) :
  fill_mean ColPercentage (fill_mean ColFunds (fill_mean ColLaidOff raw)) =
  map (filled raw) raw.
Proof.
  set (d1 := fill_mean ColLaidOff raw).
  set (d2 := fill_mean ColFunds d1).
  assert (E2 : map (num_cell ColPercentage) d2 = map (num_cell ColPercentage) raw).
  { unfold d2, d1. now rewrite !fill_mean_other_column by discriminate. }
  assert (E1 : map (num_cell ColFunds) d1 = map (num_cell ColFunds) raw).
  { unfold d1. now rewrite fill_mean_other_column by discriminate. }
  rewrite (fill_mean_map ColPercentage d2), E2.
  unfold d2. rewrite (fill_mean_map ColFunds d1), E1.
  unfold d1. rewrite (fill_mean_map ColLaidOff raw).
  rewrite !map_map. apply map_ext. intros r. reflexivity.
Qed.

Lemma normalize_country_map (df : DataFrame) :
  normalize_country df =
  map (fun r => with_Country r
                  (replace_cell "United States" "United States of America" (Country r))) df.
Proof.
  unfold normalize_country, replace. rewrite map_map. apply assign_map.
Qed.

Lemma load_data_rows parse_date (file : option DataFrame) (df : DataFrame) :
  load_data parse_date file = inr df ->
  exists raw, file = Some raw /\ Forall2 (loaded_row parse_date raw) raw df.
Proof.
  unfold load_data. intros E.
  apply bind_inr in E as (raw & Eraw & E).
  destruct file as [table |]; simpl in Eraw; [| discriminate].
  injection Eraw as ->. exists raw; split; [reflexivity |].
  rewrite fill_means_map in E.
  apply bind_inr in E as (dates & Ed & E). injection E as <-.
  apply mapM_Forall2 in Ed.
  rewrite normalize_country_map. apply Forall2_map_r.
  apply Forall2_map_l in Ed.
  apply (assign_Forall2 with_Date) in Ed.
  apply Forall2_map_l in Ed. revert Ed. apply Forall2_impl'.
  intros r r' (d & Hd & ->). unfold loaded_row, same_text_fields; simpl.
  repeat split; auto. intros []; reflexivity.
Qed.

Lemma load_data_length parse_date (raw df : DataFrame) :
  load_data parse_date (Some raw) = inr df -> List.length df = List.length raw.
Proof.
  intros E. apply load_data_rows in E as (raw' & [= <-] & H).
  symmetry. eapply Forall2_length; eauto.
Qed.

Lemma to_datetime_cell_parsed parse_date (c d : date_cell) :
  to_datetime_cell parse_date c = inr d -> date_parsed d = true.
Proof.
  destruct c as [s | t |]; simpl.
  - destruct (parse_date s); [intros [= <-]; reflexivity | discriminate].
  - intros [= <-]; reflexivity.
  - intros [= <-]; reflexivity.
Qed.

Lemma load_data_dates_parsed parse_date (file : option DataFrame) (df : DataFrame) :
  load_data parse_date file = inr df -> dates_parsed df.
Proof.
  intros E. apply load_data_rows in E as (raw & _ & H).
  eapply Forall2_Forall_r; [exact H |].
  intros r r' _ (Hd & _). eapply to_datetime_cell_parsed; eauto.
Qed.

(** ** Mean fill (C1, C9) *)

Lemma mean_Some_present (col : list (option Q)) (m : Q) :
  mean col = Some m -> exists v, In (Some v) col.
Proof.
  unfold mean. destruct (dropna col) as [| w vs] eqn:E; [discriminate |].
  intros _. exists w. apply In_dropna. rewrite E. simpl; auto.
Qed.

(** C1, amended: when a numeric column of the file has at least one
    present value, load_data returns that column without missing values:
    a missing cell holds the mean of the present cells of the column of
    the whole file (their sum over their number), a present cell is
    returned as it was. *)
Theorem load_data_fills_with_mean parse_date (raw df : DataFrame) (c : num_col) (v : Q) :
  load_data parse_date (Some raw) = inr df ->
  In (Some v) (map (num_cell c) raw) ->
  exists m : Q,
    (m * inject_Z (Z.of_nat (List.length (dropna (map (num_cell c) raw))))
     == Qsum (dropna (map (num_cell c) raw)))%Q /\
    Forall2 (fun r r' => num_cell c r' = match num_cell c r with
                                          | Some x => Some x
                                          | None => Some m
                                          end) raw df /\
    Forall (fun r' => num_cell c r' <> None) df.
Proof.
  intros E Hin.
  apply load_data_rows in E as (raw' & [= <-] & H).
  destruct (mean_spec _ _ Hin) as (m & Hm & Hmean).
  exists m. split; [exact Hmean |].
  assert (H2 : Forall2 (fun r r' => num_cell c r' = match num_cell c r with
                                                     | Some x => Some x
                                                     | None => Some m
                                                     end) raw df).
  { revert H. apply Forall2_impl'. intros r r' (_ & _ & Hn & _).
    rewrite Hn, Hm. destruct (num_cell c r); reflexivity. }
  split; [exact H2 |].
  eapply Forall2_Forall_r; [exact H2 |].
  intros r r' _ Hr. rewrite Hr. destruct (num_cell c r); discriminate.
Qed.

(** C9: a numeric column that is entirely missing in the file has no
    mean and is returned entirely missing; and when load_data did remove
    the missing values of a column, the file had a present value in it. *)
Theorem mean_fill_needs_present_value parse_date (raw df : DataFrame) (c : num_col) :
  load_data parse_date (Some raw) = inr df ->
  (Forall (fun r => num_cell c r = None) raw ->
   mean (map (num_cell c) raw) = None /\
   Forall (fun r' => num_cell c r' = None) df /\
   List.length df = List.length raw) /\
  (Exists (fun r => num_cell c r = None) raw ->
   Forall (fun r' => num_cell c r' <> None) df ->
   exists v, In (Some v) (map (num_cell c) raw)).
Proof.
  intros E. pose proof (load_data_length _ _ E) as Hlen.
  apply load_data_rows in E as (raw' & [= <-] & H). split.
  - intros Hall.
    assert (Hm : mean (map (num_cell c) raw) = None).
    { apply mean_all_missing. now apply Forall_map. }
    repeat split; auto.
    eapply Forall2_Forall_r; [exact H |].
    intros r r' Hin (_ & _ & Hn & _). rewrite Hn, Hm.
    rewrite Forall_forall in Hall. now rewrite (Hall r Hin).
  - intros Hex Hno.
    destruct (mean (map (num_cell c) raw)) as [m |] eqn:Hm.
    + eapply mean_Some_present; eauto.
    + exfalso.
      assert (H2 : Forall2 (fun r r' => num_cell c r' = num_cell c r) raw df).
      { revert H. apply Forall2_impl'. intros r r' (_ & _ & Hn & _).
        rewrite Hn, Hm. destruct (num_cell c r); reflexivity. }
      clear H Hm Hlen. induction H2 as [| r r' raw0 df0 Hr _ IH].
      * inversion Hex.
      * inversion Hno as [| ? ? Hr' Hno']; subst.
        inversion Hex as [? ? Hnone | ? ? Hex']; subst.
        -- apply Hr'. now rewrite Hr.
        -- auto.
Qed.

(** ** Country normalization (C2) *)

(** C2: the normalization step of load_data maps the Country cell
    "United States" to "United States of America" and changes nothing
    else: not another Country cell, not another field, not the number
    of records. *)
Theorem normalize_country_spec (df : DataFrame) :
  List.length (normalize_country df) = List.length df /\
  Forall2 (fun r r' =>
             (Country r = Some "United States"%string ->
              Country r' = Some "United States of America"%string) /\
             (Country r <> Some "United States"%string -> Country r' = Country r) /\
             Company r' = Company r /\ Industry r' = Industry r /\
             Location_HQ r' = Location_HQ r /\ Stage r' = Stage r /\
             Date r' = Date r /\ Laid_Off_Count r' = Laid_Off_Count r /\
             Funds_Raised r' = Funds_Raised r /\ Percentage r' = Percentage r)
          df (normalize_country df).
Proof.
  rewrite normalize_country_map. split; [apply length_map |].
  apply Forall2_map_r. induction df as [| r df IH]; constructor; auto.
  simpl. repeat split; auto.
  - intros ->. reflexivity.
  - intros Hne. destruct (Country r) as [s |]; simpl; [| reflexivity].
    destruct (String.eqb_spec s "United States"); [subst; contradiction | reflexivity].
Qed.

(** ** Group keys are strictly ordered *)

#[export] Instance KeyOk_string : KeyOk string.
Proof.
  split; simpl.
  - exact String_as_OT.cmp_eq.
  - intros a b. apply String.compare_antisym.
  - intros a b c Hab Hbc.
    apply String_as_OT.cmp_lt. apply String_as_OT.cmp_lt in Hab, Hbc.
    eapply String_as_OT.lt_trans; eauto.
Qed.

#[export] Instance KeyOk_Z : KeyOk Z.
Proof.
  split; simpl.
  - exact Z.compare_eq_iff.
  - intros a b. apply Z.compare_antisym.
  - intros a b c Hab Hbc. rewrite Z.compare_lt_iff in *. lia.
Qed.

#[export] Instance KeyOk_pair {A B : Type} `{KeyOk A} `{KeyOk B} : KeyOk (A * B).
Proof.
  split; simpl.
  - intros [a1 b1] [a2 b2]; simpl. split.
    + destruct (kcompare a1 a2) eqn:Ca; try discriminate.
      intros Cb. apply kcompare_eq in Ca, Cb. now subst.
    + intros [= -> ->].
      rewrite (proj2 (kcompare_eq a2 a2) eq_refl).
      now apply kcompare_eq.
  - intros [a1 b1] [a2 b2]; simpl.
    rewrite (kcompare_antisym a1 a2).
    destruct (kcompare a1 a2); simpl; auto using kcompare_antisym.
  - intros [a1 b1] [a2 b2] [a3 b3]; simpl.
    destruct (kcompare a1 a2) eqn:C12; try discriminate;
      destruct (kcompare a2 a3) eqn:C23; try discriminate; intros H12 H23.
    + apply kcompare_eq in C12, C23. subst.
      rewrite (proj2 (kcompare_eq a3 a3) eq_refl).
      eapply kcompare_trans; eauto.
    + apply kcompare_eq in C12. subst. now rewrite C23.
    + apply kcompare_eq in C23. subst. now rewrite C12.
    + now rewrite (kcompare_trans _ _ _ C12 C23).
Qed.

Section GroupBy.

Context {K : Type} `{KeyOk K}.

Lemma agg_add_Forall (k0 k : K) (v : Q) (acc : Series K) :
  klt k0 k ->
  Forall (fun e => klt k0 (fst e)) acc ->
  Forall (fun e => klt k0 (fst e)) (agg_add k v acc).
Proof.
  intros Hk. induction 1 as [| [k' s] acc Hk' Hacc IH]; simpl.
  - repeat constructor. exact Hk.
  - destruct (kcompare k k'); repeat constructor; auto.
Qed.

Lemma agg_add_sorted (k : K) (v : Q) (acc : Series K) :
  keys_ascending fst acc -> keys_ascending fst (agg_add k v acc).
Proof.
  unfold keys_ascending.
  induction 1 as [| [k' s] acc Hacc IH Hk']; simpl.
  - repeat constructor.
  - destruct (kcompare k k') eqn:C.
    + constructor; [exact Hacc | exact Hk'].
    + constructor; [constructor; assumption |].
      constructor; [exact C |].
      revert Hk'. apply Forall_impl. intros e He. unfold klt in *; simpl in *.
      eapply kcompare_trans; eauto.
    + constructor; [exact IH |].
      apply agg_add_Forall; [| exact Hk'].
      unfold klt; simpl. rewrite kcompare_antisym, C. reflexivity.
Qed.

(** groupby(...).sum() lists its groups in ascending order of the key,
    whatever the order of the records. *)
Lemma groupby_sum_sorted (keys : list (option K)) (vals : list (option Q)) :
  keys_ascending fst (groupby_sum keys vals).
Proof.
  unfold groupby_sum.
  assert (G : forall kvs acc, keys_ascending fst acc ->
              keys_ascending fst
                (fold_left (fun acc (kv : option K * option Q) =>
                   match fst kv with
                   | Some k => agg_add k (match snd kv with Some v => v | None => 0%Q end) acc
                   | None => acc
                   end) kvs acc)).
  { induction kvs as [| [[k |] v] kvs IH]; simpl; intros acc Hacc; auto.
    apply IH. now apply agg_add_sorted. }
  apply G. constructor.
Qed.

End GroupBy.

(** ** Taking rows by position *)

Lemma take_map {A B : Type} (f : A -> B) (l : list A) (indexer : list nat) :
  take (map f l) indexer = map f (take l indexer).
Proof.
  unfold take. induction indexer as [| i indexer IH]; simpl; [reflexivity |].
  rewrite map_app, <- IH. f_equal. rewrite nth_error_map.
  destruct (nth_error l i); reflexivity.
Qed.

Lemma take_seq_from {A : Type} (l pre : list A) :
  take (pre ++ l) (seq (List.length pre) (List.length l)) = l.
Proof.
  revert pre. induction l as [| a l IH]; intros pre; simpl; [reflexivity |].
  rewrite nth_error_app2, Nat.sub_diag by lia. simpl. f_equal.
  specialize (IH (pre ++ [a])).
  rewrite <- app_assoc, length_app, Nat.add_1_r in IH. exact IH.
Qed.

Lemma take_seq {A : Type} (l : list A) : take l (seq 0 (List.length l)) = l.
Proof. exact (take_seq_from l []). Qed.

Lemma take_perm {A : Type} (l : list A) (indexer indexer' : list nat) :
  Permutation indexer indexer' -> Permutation (take l indexer) (take l indexer').
Proof. intros P. unfold take. now apply Permutation_flat_map. Qed.

Lemma Forall2_nth_error {A : Type} (R : A -> A -> Prop) (l l' : list A) :
  Forall2 R l l' ->
  forall i, match nth_error l i, nth_error l' i with
            | Some a, Some b => R a b
            | None, None => True
            | _, _ => False
            end.
Proof.
  induction 1 as [| a b l l' Hab _ IH]; intros [| i]; simpl; auto.
  apply IH.
Qed.

Lemma take_related {A : Type} (R : A -> A -> Prop) (l l' : list A) (indexer : list nat) :
  Forall2 R l l' -> Forall2 R (take l indexer) (take l' indexer).
Proof.
  intros H. unfold take. induction indexer as [| i indexer IH]; simpl; [constructor |].
  apply Forall2_app; [| exact IH].
  pose proof (Forall2_nth_error H i) as Hi.
  destruct (nth_error l i), (nth_error l' i); try contradiction; repeat constructor.
  exact Hi.
Qed.

Section Orders.

Variables (A : Type).

Lemma StronglySorted_snoc (R : A -> A -> Prop) (l : list A) (x : A) :
  StronglySorted R l -> Forall (fun a => R a x) l -> StronglySorted R (l ++ [x]).
Proof.
  induction 1 as [| y l Hl IH Hy]; simpl; intros Hx.
  - repeat constructor.
  - inversion Hx; subst. constructor; [auto |].
    apply Forall_app; split; [exact Hy | repeat constructor; assumption].
Qed.

Lemma StronglySorted_rev (R : A -> A -> Prop) (l : list A) :
  StronglySorted R l -> StronglySorted (fun a b => R b a) (rev l).
Proof.
  induction 1 as [| y l Hl IH Hy]; simpl; [constructor |].
  apply StronglySorted_snoc; [exact IH | now apply Forall_rev].
Qed.


Lemma Forall2_snoc (Rel : A -> A -> Prop) (l l' : list A) (x x' : A) :
  Forall2 Rel l l' -> Rel x x' -> Forall2 Rel (l ++ [x]) (l' ++ [x']).
Proof.
  induction 1; simpl; repeat constructor; auto.
Qed.

Lemma Forall2_rev_related (Rel : A -> A -> Prop) (l l' : list A) :
  Forall2 Rel l l' -> Forall2 Rel (rev l) (rev l').
Proof.
  induction 1; simpl; [constructor | now apply Forall2_snoc].
Qed.


End Orders.

Section Relabel.

Variables (V W : Type) (f : W -> V).

Lemma StronglySorted_map_inv (R : V -> V -> Prop) (l : list W) :
  StronglySorted R (map f l) -> StronglySorted (fun a b => R (f a) (f b)) l.
Proof.
  induction l as [| x l IH]; simpl; intros Hs; [constructor |].
  inversion Hs as [| ? ? Hs' Hx]; subst. constructor; [auto |].
  rewrite Forall_forall in *. intros y Hy. apply Hx. now apply in_map.
Qed.

Lemma StronglySorted_map (R : V -> V -> Prop) (l : list W) :
  StronglySorted (fun a b => R (f a) (f b)) l -> StronglySorted R (map f l).
Proof.
  induction 1 as [| x l Hl IH Hx]; simpl; constructor; auto.
  rewrite Forall_forall in *. intros y Hy.
  apply in_map_iff in Hy as (z & <- & Hz). auto.
Qed.

End Relabel.

Lemma map_snd_reset_index {K : Type} (s : Series K) : map snd (reset_index s) = s.
Proof.
  unfold reset_index.
  assert (G : forall (l : list (K * Q)) (ns : list nat),
             List.length ns = List.length l -> map snd (combine ns l) = l).
  { induction l as [| x l IH]; intros [| n ns] E; simpl in *; try discriminate; auto.
    f_equal. apply IH. now injection E. }
  apply G. apply length_seq.
Qed.

Lemma reset_index_keys_ascending {K : Type} `{KeyOk K} (s : Series K) :
  keys_ascending fst s -> keys_ascending key_of (reset_index s).
Proof.
  intros Hs. unfold keys_ascending.
  apply (@StronglySorted_map_inv _ _ snd (fun a b : K * Q => klt (fst a) (fst b))).
  now rewrite map_snd_reset_index.
Qed.

(** The grouped table does not depend on the order of the records. *)
Example grouped_table_ignores_record_order :
  groupby_sum (map Country (rev ties_df)) (map Laid_Off_Count (rev ties_df))
  = groupby_sum (map Country ties_df) (map Laid_Off_Count ties_df).
Proof. reflexivity. Qed.

(** ** Sums *)

Lemma Qsum_app (l1 l2 : list Q) : (Qsum (l1 ++ l2) == Qsum l1 + Qsum l2)%Q.
Proof.
  induction l1 as [| x l1 IH]; simpl; [ring | rewrite IH; ring].
Qed.

Lemma Qsum_perm (l1 l2 : list Q) : Permutation l1 l2 -> (Qsum l1 == Qsum l2)%Q.
Proof.
  induction 1 as [| x l1 l2 _ IH | x y l | l1 l2 l3 _ IH1 _ IH2]; simpl.
  - reflexivity.
  - now rewrite IH.
  - ring.
  - now rewrite IH1.
Qed.

Lemma Qsum_nan_to_zero (col : list (option Q)) :
  (Qsum (map nan_to_zero col) == series_sum col)%Q.
Proof.
  unfold series_sum. induction col as [| [v |] col IH]; simpl.
  - reflexivity.
  - now rewrite IH.
  - rewrite IH. ring.
Qed.

Lemma groupby_sum_fold {K : Type} `{Key K}
      (keys : list (option K)) (vals : list (option Q)) :
  groupby_sum keys vals = fold_left group_step (combine keys vals) [].
Proof. reflexivity. Qed.

Lemma combine_map_map {A B C : Type} (f : A -> B) (g : A -> C) (l : list A) :
  combine (map f l) (map g l) = map (fun a => (f a, g a)) l.
Proof. induction l; simpl; congruence. Qed.

Lemma Qsum_nonneg (l : list Q) : Forall (fun x => (0 <= x)%Q) l -> (0 <= Qsum l)%Q.
Proof.
  induction 1 as [| x l Hx _ IH]; simpl; [apply Qle_refl |].
  rewrite <- (Qplus_0_r 0). now apply Qplus_le_compat.
Qed.

Lemma Qsum_ge_elem (l : list Q) (x : Q) :
  Forall (fun y => (0 <= y)%Q) l -> In x l -> (x <= Qsum l)%Q.
Proof.
  induction 1 as [| y l Hy Hl IH]; simpl; [contradiction |].
  intros [-> | Hin].
  - rewrite <- (Qplus_0_r x) at 1. apply Qplus_le_compat; [apply Qle_refl |].
    now apply Qsum_nonneg.
  - rewrite <- (Qplus_0_l x). apply Qplus_le_compat; auto.
Qed.

Lemma In_head {A : Type} (n : nat) (l : list A) (a : A) :
  In a (head n l) -> In a l.
Proof.
  unfold head. intros Hin. rewrite <- (firstn_skipn n l).
  apply in_or_app. now left.
Qed.

Lemma In_reset_index {K : Type} (s : Series K) (r : nat * (K * Q)) :
  In r (reset_index s) -> In (snd r) s.
Proof.
  intros Hin. apply (in_map snd) in Hin. now rewrite map_snd_reset_index in Hin.
Qed.

(** ** Sums within the range of int64 *)

(** The int64 sum of integers is their sum modulo 2^64, so it is their
    sum whenever that lies in the range of int64.  Under
    [sums_fit_int64] this is the case of every sum the script takes over
    cells of the column: of the sum of each group, and of a sum of sums
    of different groups. *)

Lemma Qabs_Qsum (l : list Q) : (Qabs (Qsum l) <= Qsum (map Qabs l))%Q.
Proof.
  induction l as [| x l IH]; simpl; [apply Qle_refl |].
  eapply Qle_trans; [apply Qabs_triangle |]. lra.
Qed.

Lemma Qsum_abs_nonneg (l : list Q) : (0 <= Qsum (map Qabs l))%Q.
Proof.
  apply Qsum_nonneg, Forall_map, Forall_forall. intros x _. apply Qabs_nonneg.
Qed.

Lemma Qsum_abs_head (n : nat) (l : list Q) :
  (Qsum (map Qabs (head n l)) <= Qsum (map Qabs l))%Q.
Proof.
  unfold head. rewrite <- (firstn_skipn n l) at 2.
  rewrite map_app, Qsum_app.
  pose proof (Qsum_abs_nonneg (skipn n l)). lra.
Qed.

Lemma Qsum_abs_filter {A : Type} (f : A -> Q) (p : A -> bool) (l : list A) :
  (Qsum (map Qabs (map f (filter p l))) <= Qsum (map Qabs (map f l)))%Q.
Proof.
  induction l as [| x l IH]; simpl; [apply Qle_refl |].
  pose proof (Qabs_nonneg (f x)). destruct (p x); simpl; lra.
Qed.

Lemma dropna_nan_to_zero (col : list (option Q)) :
  (Qsum (map Qabs (map nan_to_zero col)) == Qsum (map Qabs (dropna col)))%Q.
Proof.
  induction col as [| [v |] col IH]; simpl; [reflexivity | now rewrite IH |].
  rewrite IH. change (Qabs 0) with 0%Q. ring.
Qed.

Lemma sums_fit_int64_filter {A : Type} (val : A -> option Q) (p : A -> bool) (l : list A) :
  sums_fit_int64 (map val l) -> sums_fit_int64 (map val (filter p l)).
Proof.
  unfold sums_fit_int64. rewrite <- !dropna_nan_to_zero, !map_map.
  apply Qle_lt_trans.
  rewrite <- !(map_map (fun x => nan_to_zero (val x)) Qabs).
  apply Qsum_abs_filter.
Qed.

Section Int64.

Context {K : Type} `{Key K}.

Lemma agg_add_abs (k : K) (v : Q) (acc : Series K) :
  (Qsum (map Qabs (map snd (agg_add k v acc)))
   <= Qsum (map Qabs (map snd acc)) + Qabs v)%Q.
Proof.
  unfold Qsum.
  induction acc as [| [k0 s0] acc IH]; cbn [agg_add map snd fold_right]; [lra |].
  destruct (kcompare k k0); cbn [agg_add map snd fold_right].
  - pose proof (Qabs_triangle s0 v). lra.
  - lra.
  - lra.
Qed.

Lemma fold_group_step_abs (kvs : list (option K * option Q)) :
  forall acc,
  (Qsum (map Qabs (map snd (fold_left group_step kvs acc)))
   <= Qsum (map Qabs (map snd acc))
      + Qsum (map Qabs (map (fun kv => nan_to_zero (snd kv)) kvs)))%Q.
Proof.
  induction kvs as [| [ko vo] kvs IH]; intros acc;
    cbn [fold_left map snd]; [unfold Qsum; cbn [fold_right]; lra |].
  eapply Qle_trans; [apply IH |].
  pose proof (Qabs_nonneg (nan_to_zero vo)).
  destruct ko as [k |].
  - change (group_step acc (Some k, vo)) with (agg_add k (nan_to_zero vo) acc).
    pose proof (agg_add_abs k (nan_to_zero vo) acc).
    unfold Qsum in *. cbn [fold_right]. lra.
  - change (group_step acc (None, vo)) with acc.
    unfold Qsum in *. cbn [fold_right]. lra.
Qed.

Variables (key : Row -> option K) (val : Row -> option Q).

Lemma groupby_sum_abs (df : DataFrame) :
  (Qsum (map Qabs (map snd (groupby_sum (map key df) (map val df))))
   <= Qsum (map Qabs (dropna (map val df))))%Q.
Proof.
  rewrite groupby_sum_fold, combine_map_map, <- dropna_nan_to_zero.
  eapply Qle_trans; [apply fold_group_step_abs |].
  rewrite !map_map. simpl. lra.
Qed.

(** The sum of a group lies in the range of int64. *)
Lemma group_sum_fits_int64 (df : DataFrame) (e : K * Q) :
  sums_fit_int64 (map val df) ->
  In e (groupby_sum (map key df) (map val df)) ->
  fits_int64 (snd e).
Proof.
  unfold sums_fit_int64, fits_int64. intros Hfit Hin.
  eapply Qle_lt_trans; [| exact Hfit].
  eapply Qle_trans; [| apply groupby_sum_abs].
  apply Qsum_ge_elem.
  - apply Forall_map, Forall_forall. intros x _. apply Qabs_nonneg.
  - rewrite map_map. apply (in_map (fun x => Qabs (snd x))). exact Hin.
Qed.

(** So does the sum of the sums of any rows of the grouped table, taken
    in any order. *)
Lemma group_sums_fit_int64 (df : DataFrame) (n : nat) (rows : list (K * Q)) :
  sums_fit_int64 (map val df) ->
  Permutation rows (groupby_sum (map key df) (map val df)) ->
  fits_int64 (Qsum (map snd (head n rows))).
Proof.
  unfold sums_fit_int64, fits_int64. intros Hfit P.
  eapply Qle_lt_trans; [| exact Hfit].
  eapply Qle_trans; [apply Qabs_Qsum |].
  eapply Qle_trans; [| apply groupby_sum_abs].
  unfold head. rewrite <- firstn_map.
  eapply Qle_trans; [apply (Qsum_abs_head n (map snd rows)) |].
  apply Qle_lteq. right.
  apply Qsum_perm. now apply Permutation_map, Permutation_map.
Qed.

End Int64.

(** * The views and the script, for any sort numpy may run *)

Section Dashboard.

Context `{np : NumpySort}.

(** ** sort_values(ascending=False) *)

Section Sorting.

Variables (A : Type) (val : A -> Q).

Lemma sort_values_desc_perm (l : list A) :
  Permutation l (sort_values_desc val l).
Proof.
  unfold sort_values_desc. rewrite <- Permutation_rev.
  rewrite (Permutation_rev l) at 1.
  rewrite <- (take_seq (rev l)) at 1.
  apply take_perm. symmetry.
  replace (List.length (rev l)) with (List.length (rev (map val l)))
    by now rewrite !length_rev, length_map.
  apply argsort_perm.
Qed.

(** The values of the sorted rows are the values argsort put in
    ascending order, read backwards. *)
Lemma sort_values_desc_values (l : list A) :
  map val (sort_values_desc val l)
  = rev (take (rev (map val l)) (argsort (rev (map val l)))).
Proof.
  unfold sort_values_desc. now rewrite map_rev, <- take_map, map_rev.
Qed.

Lemma sort_values_desc_descending (l : list A) :
  descending val (sort_values_desc val l).
Proof.
  unfold descending.
  apply (@StronglySorted_map_inv _ _ val (fun a b => (b <= a)%Q)).
  rewrite sort_values_desc_values.
  apply (@StronglySorted_rev _ Qle). apply argsort_sorted.
Qed.

Lemma sort_values_desc_In (l : list A) (a : A) :
  In a (sort_values_desc val l) <-> In a l.
Proof.
  split; apply Permutation_in;
    [symmetry |]; apply sort_values_desc_perm.
Qed.

Lemma length_sort_values_desc (l : list A) :
  List.length (sort_values_desc val l) = List.length l.
Proof. symmetry. apply Permutation_length, sort_values_desc_perm. Qed.

Lemma sort_values_desc_nil : sort_values_desc val [] = [].
Proof. apply Permutation_nil, sort_values_desc_perm. Qed.

End Sorting.

(** Sorting commutes with a relabelling of the rows that keeps their
    values. *)
Lemma sort_values_desc_map (A B : Type) (f : A -> B) (val : B -> Q) (l : list A) :
  map f (sort_values_desc (fun a => val (f a)) l) = sort_values_desc val (map f l).
Proof.
  unfold sort_values_desc. now rewrite map_rev, <- take_map, map_rev, map_map.
Qed.

(** Two tables with equal values, row by row, are sorted alike: the
    order of the outcome depends on the values only. *)
Lemma sort_values_desc_related (A : Type) (val : A -> Q) (Rel : A -> A -> Prop)
      (l l' : list A) :
  (forall a b, Rel a b -> (val a == val b)%Q) ->
  Forall2 Rel l l' ->
  Forall2 Rel (sort_values_desc val l) (sort_values_desc val l').
Proof.
  intros Rel_val H. unfold sort_values_desc.
  apply Forall2_rev_related.
  assert (Hv : Forall2 Qeq (rev (map val l)) (rev (map val l'))).
  { apply Forall2_rev_related.
    clear - Rel_val H. induction H; simpl; constructor; auto. }
  rewrite (argsort_values Hv).
  apply take_related. now apply Forall2_rev_related.
Qed.

(** ** Top 5 countries and the all-countries view (C10) *)

(** C10: the rows of the top-5-countries view (Country and summed
    Laid_Off_Count, in order) are the first five rows of the
    all-countries view; the two frames differ in their index labels
    only. *)
Theorem top_countries_head_of_country_layoffs (df : DataFrame) :
  map snd (head 5 (country_layoffs df)) = map snd (top_countries df).
Proof.
  unfold top_countries, country_layoffs, head.
  rewrite map_snd_reset_index, <- firstn_map. f_equal.
  unfold value_of.
  rewrite (sort_values_desc_map (@snd nat (string * Q)) snd).
  now rewrite map_snd_reset_index.
Qed.

(** ** The script on a loaded dataset *)

Lemma mask_rows_filter {A B : Type} (p : B * A -> bool) (h : A -> B) (l : list A) :
  mask_rows l (map p (combine (map h l) l)) = filter (fun a => p (h a, a)) l.
Proof.
  unfold mask_rows. induction l as [| a l IH]; simpl; [reflexivity |].
  destruct (p (h a, a)); simpl; now rewrite IH.
Qed.

Lemma mask_rows_map {A : Type} (p : A -> bool) (l : list A) :
  mask_rows l (map p l) = filter p l.
Proof.
  unfold mask_rows. induction l as [| a l IH]; simpl; [reflexivity |].
  destruct (p a); simpl; now rewrite IH.
Qed.

Lemma df_filtered_filter (df : DataFrame) (i c : option string) :
  df_filtered df i c =
  filter (fun r => eq_cell (Industry r) i && eq_cell (Country r) c) df.
Proof. apply mask_rows_map. Qed.

Lemma dt_year_parsed (df : DataFrame) :
  dates_parsed df -> dt_year (map Date df) = inr (map (fun r => year_of (Date r)) df).
Proof.
  intros Hd. unfold dt_year. rewrite <- (map_map Date year_of).
  apply mapM_pure. apply Forall_map. revert Hd. apply Forall_impl.
  intros r Hr. destruct (Date r); [discriminate | reflexivity | reflexivity].
Qed.

(** pd.to_datetime on a column of parsed dates returns it unchanged,
    so the assignment of line 171 writes back what [df] holds. *)
Lemma to_datetime_parsed parse_date (df : DataFrame) :
  dates_parsed df -> to_datetime parse_date (map Date df) = inr (map Date df).
Proof.
  intros Hd. unfold to_datetime. rewrite <- (map_id (map Date df)) at 2.
  apply mapM_pure. apply Forall_map. revert Hd. apply Forall_impl.
  intros r Hr. destruct (Date r); [discriminate | reflexivity | reflexivity].
Qed.

Lemma assign_Date_same (df : DataFrame) : assign with_Date df (map Date df) = df.
Proof.
  rewrite assign_map. rewrite <- (map_id df) at 2. apply map_ext.
  intros []; reflexivity.
Qed.

Lemma dates_parsed_filter (p : Row -> bool) (df : DataFrame) :
  dates_parsed df -> dates_parsed (filter p df).
Proof.
  unfold dates_parsed. rewrite !Forall_forall. intros Hd r Hr.
  apply filter_In in Hr. now apply Hd.
Qed.

Lemma df_recent_years_parsed (df : DataFrame) :
  dates_parsed df -> df_recent_years df = inr (recent_years_rows df).
Proof.
  intros Hd. unfold df_recent_years. rewrite (dt_year_parsed Hd). simpl.
  unfold ret. f_equal.
  apply (mask_rows_filter
           (fun yr => isin_year (fst yr) [2022; 2023]%Z
                      && negb (eq_cell (Industry (snd yr)) (Some "Other"%string)))).
Qed.

Lemma df_time_series_parsed (d : DataFrame) :
  dates_parsed d -> df_time_series d = inr (yearly_sums d).
Proof.
  intros Hd. unfold df_time_series. now rewrite (dt_year_parsed Hd).
Qed.

Lemma df_filtered_2020_parsed (df : DataFrame) :
  dates_parsed df -> df_filtered_2020 df = inr (since_2020_rows df).
Proof.
  intros Hd. unfold df_filtered_2020. rewrite (dt_year_parsed Hd). simpl.
  unfold ret. f_equal. rewrite map_map. apply mask_rows_map.
Qed.

(** On a dataset whose dates are parsed the script raises nothing, and
    its variables hold these values at the end. *)
Lemma dashboard_parsed parse_date (df : DataFrame) (i c : option string) :
  dates_parsed df ->
  dashboard parse_date df i c =
  inr (Env.mk df i c (top_countries df) (country_layoffs df)
              (recent_years_rows df) (top_industries_recent (recent_years_rows df))
              (yearly_sums (df_filtered df i c)) (top_companies df)
              (since_2020_rows df) (top_companies_data (since_2020_rows df))
              (top_companies_filtered (since_2020_rows df) i) (stage_layoffs df)).
Proof.
  intros Hd. unfold dashboard.
  rewrite (df_recent_years_parsed Hd). simpl.
  rewrite df_time_series_parsed
    by (rewrite df_filtered_filter; now apply dates_parsed_filter).
  simpl. rewrite (to_datetime_parsed parse_date Hd). simpl.
  rewrite assign_Date_same, (df_filtered_2020_parsed Hd). reflexivity.
Qed.

(** ** Percentage of the top 50 companies (C4) *)

Lemma Qsum_percent (total : Q) (l : list Q) :
  ~ (total == 0)%Q ->
  (Qsum (map (fun x => x / total * 100) l) == Qsum l / total * 100)%Q.
Proof.
  intros Ht. induction l as [| x l IH]; simpl.
  - field. exact Ht.
  - rewrite IH. field. exact Ht.
Qed.

(** The rows of a sorted and truncated table are rows of the grouped
    table. *)
Lemma frame_rows_perm {K : Type} (g : Series K) :
  Permutation (map snd (sort_values_desc value_of (reset_index g))) g.
Proof.
  rewrite <- (map_snd_reset_index g) at 2.
  apply Permutation_map. symmetry. apply sort_values_desc_perm.
Qed.

(** C4, amended: the view has at most 50 rows.  When no sum of the
    Laid_Off_Count column leaves the range of int64 (the sums of the
    rows and their total are then in that range, so that the script
    holds these very numbers) and the total of the rows of the view is
    not zero, the Percentage of each row is a finite number, its sum
    divided by the total of the rows of the view, times 100, and the
    Percentage column sums to 100 (exactly here, up to the rounding of
    float64 in the script). *)
Theorem top_companies_data_percentage (d : DataFrame) :
  let view := top_companies_data d in
  let total := Qsum (map data_count view) in
  sums_fit_int64 (map Laid_Off_Count d) ->
  ~ (total == 0)%Q ->
  (List.length view <= 50)%nat /\
  Forall (fun r => fits_int64 (data_count r)) view /\
  fits_int64 total /\
  exists ps : list Q,
    map data_percentage view = map Finite ps /\
    Forall2 (fun r p => p = (data_count r / total * 100)%Q) view ps /\
    (Qsum ps == 100)%Q.
Proof.
  intros view total Hfit Ht.
  set (g := groupby_sum (map key4 d) (map Laid_Off_Count d)).
  set (s := head 50 (sort_values_desc value_of (reset_index g))).
  set (total0 := Qsum (map value_of s)).
  assert (Ev : view = map (fun r => (fst r, (snd r, percent_of total0 (value_of r)))) s)
    by reflexivity.
  assert (Et : total = total0).
  { unfold total. rewrite Ev, map_map. reflexivity. }
  rewrite Et in *. clear Et total. clearbody view. subst view.
  split; [| split; [| split]].
  - rewrite length_map. unfold s, head. apply firstn_le_length.
  - apply Forall_map, Forall_forall. intros r Hr. unfold s in Hr.
    apply In_head, sort_values_desc_In, In_reset_index in Hr.
    exact (group_sum_fits_int64 key4 Laid_Off_Count d (snd r) Hfit Hr).
  - unfold total0, s.
    replace (map value_of (head 50 (sort_values_desc value_of (reset_index g))))
      with (map snd (head 50 (map snd (sort_values_desc value_of (reset_index g)))))
      by (unfold head; now rewrite firstn_map, map_map).
    apply (group_sums_fit_int64 key4 Laid_Off_Count d 50 Hfit).
    apply frame_rows_perm.
  - exists (map (fun r => (value_of r / total0 * 100)%Q) s).
    assert (Eb : Qeq_bool total0 0 = false).
    { destruct (Qeq_bool total0 0) eqn:E; [| reflexivity].
      apply Qeq_bool_iff in E. contradiction. }
    repeat split.
    + rewrite !map_map. apply map_ext. intros r.
      unfold data_percentage, percent_of; simpl. now rewrite Eb.
    + apply Forall2_map_l, Forall2_map_r, Forall2_diag.
      intros r. reflexivity.
    + rewrite <- (map_map value_of (fun x => (x / total0 * 100)%Q)).
      rewrite Qsum_percent by exact Ht. fold total0. field. exact Ht.
Qed.

(** ** Filters (C5, C6), the dataset after the script (C8), reloading (C7) *)

(** C5, amended: on a loaded dataset the script raises nothing whatever
    the two filter values are, inside the list of the country select box
    or not; the yearly view is computed from the records whose Industry
    and Country equal the filter values. *)
Theorem filters_never_raise parse_date (file : option DataFrame) (df : DataFrame)
        (industry_filter country_filter : option string) :
  load_data parse_date file = inr df ->
  exists env,
    dashboard parse_date df industry_filter country_filter = inr env /\
    Env.df_time_series env =
    yearly_sums (filter (fun r => eq_cell (Industry r) industry_filter
                                  && eq_cell (Country r) country_filter) df).
Proof.
  intros E. apply load_data_dates_parsed in E.
  eexists. split; [apply (dashboard_parsed parse_date _ _ E) |].
  simpl. now rewrite df_filtered_filter.
Qed.

(** C6, amended: on a loaded dataset the script raises nothing; the
    yearly view has no row when no record has the selected Industry and
    Country; the top-10 view of the selected industry, which looks at
    all countries, has no row when no record of 2020 or later has the
    selected Industry. *)
Theorem empty_slice_views parse_date (file : option DataFrame) (df : DataFrame)
        (industry_filter country_filter : option string) :
  load_data parse_date file = inr df ->
  exists env,
    dashboard parse_date df industry_filter country_filter = inr env /\
    (Forall (fun r => eq_cell (Industry r) industry_filter
                      && eq_cell (Country r) country_filter = false) df ->
     Env.df_time_series env = []) /\
    (Forall (fun r => year_ge (year_of (Date r)) 2020
                      && eq_cell (Industry r) industry_filter = false) df ->
     Env.top_companies_filtered env = []).
Proof.
  intros E. apply load_data_dates_parsed in E.
  eexists. split; [apply (dashboard_parsed parse_date _ _ E) |].
  simpl. split.
  - intros Hnone. rewrite df_filtered_filter.
    replace (filter _ df) with (@nil Row); [reflexivity |].
    symmetry. clear E. induction Hnone as [| r l Hr _ IH]; simpl; [reflexivity |].
    now rewrite Hr.
  - intros Hnone. unfold top_companies_filtered.
    rewrite mask_rows_map. unfold since_2020_rows.
    replace (filter _ (filter _ df)) with (@nil Row);
      [simpl; now rewrite sort_values_desc_nil |].
    symmetry. clear E. induction Hnone as [| r l Hr _ IH]; simpl; [reflexivity |].
    destruct (year_ge (year_of (Date r)) 2020) eqn:Ey; simpl in *; [| exact IH].
    now rewrite Hr.
Qed.

(** C8: on a loaded dataset the script runs to its end and [df] then
    holds the dataset the loader returned, field by field; the one
    assignment to [df], line 171, writes back the dates it read, and the
    queries after it see the loaded dataset. *)
Theorem dashboard_keeps_dataset parse_date (file : option DataFrame) (df : DataFrame)
        (industry_filter country_filter : option string) :
  load_data parse_date file = inr df ->
  exists env,
    dashboard parse_date df industry_filter country_filter = inr env /\
    Env.df env = df /\
    Env.df_filtered env = since_2020_rows df /\
    Env.stage_layoffs env = stage_layoffs df.
Proof.
  intros E. apply load_data_dates_parsed in E.
  eexists. split; [apply (dashboard_parsed parse_date _ _ E) |].
  repeat split.
Qed.

Lemma run_loaded parse_date (file : option DataFrame) (df : DataFrame)
      (w : Widgets) (memo : option DataFrame) :
  load_data parse_date file = inr df ->
  memo = None \/ memo = Some df ->
  exists env, run parse_date file w memo = inr (env, Some df) /\ Env.df env = df.
Proof.
  intros E Hm. pose proof (load_data_dates_parsed _ _ E) as Hd.
  assert (El : cached_load_data parse_date memo file = inr (df, Some df)).
  { destruct Hm as [-> | ->]; simpl; [now rewrite E | reflexivity]. }
  unfold run. rewrite El. simpl.
  rewrite (dashboard_parsed parse_date _ _ Hd). simpl. eauto.
Qed.

(** C7: load_data is a function of the file, and through the cache of
    the session it keeps returning the dataset of the first call: same
    records, same fields, same fill values, in every rerun. *)
Theorem load_data_repeatable parse_date (file : option DataFrame) (df : DataFrame)
        (ws : list Widgets) :
  load_data parse_date file = inr df ->
  cached_load_data parse_date None file = inr (df, Some df) /\
  cached_load_data parse_date (Some df) file = inr (df, Some df) /\
  exists envs,
    session parse_date file ws None
    = inr (envs, match ws with [] => None | _ :: _ => Some df end) /\
    List.length envs = List.length ws /\
    Forall (fun env => Env.df env = df) envs.
Proof.
  intros E. split; [simpl; now rewrite E |]. split; [reflexivity |].
  assert (G : forall ws memo, memo = None \/ memo = Some df ->
              exists envs,
                session parse_date file ws memo
                = inr (envs, match ws with [] => memo | _ :: _ => Some df end) /\
                List.length envs = List.length ws /\
                Forall (fun env => Env.df env = df) envs).
  { clear ws. induction ws as [| w ws IH]; intros memo Hm; simpl.
    - exists []. repeat split; constructor.
    - destruct (run_loaded _ _ w E Hm) as (env & -> & Henv). simpl.
      destruct (IH (Some df) (or_intror eq_refl)) as (envs & -> & Hlen & Hall).
      simpl. exists (env :: envs). repeat split; simpl; auto.
      now destruct ws. }
  apply G. now left.
Qed.

(** * Further properties of the loader *)

Lemma mapM_inl_In {A B : Type} (f : A -> result B) (l : list A) (e : exn) :
  mapM f l = inl e -> exists a, In a l /\ f a = inl e.
Proof.
  induction l as [| a l IH]; simpl; [discriminate |].
  destruct (f a) as [e' | b] eqn:Ea; simpl.
  - intros [= ->]. exists a. auto.
  - destruct (mapM f l) as [e' | bs]; simpl; [| discriminate].
    intros [= ->]. destruct (IH eq_refl) as (a' & Hin & Ha'). exists a'. auto.
Qed.



Lemma to_datetime_errors parse_date (col : list date_cell) (e : exn) :
  to_datetime parse_date col = inl e ->
  e = ValueError /\ Exists (fun c => parseable parse_date c = false) col.
Proof.
  intros E. apply mapM_inl_In in E as (c & Hin & Hc).
  destruct c as [s | t |]; simpl in Hc; try discriminate.
  destruct (parse_date s) eqn:Es; [discriminate |].
  injection Hc as <-. split; [reflexivity |].
  apply Exists_exists. exists (DateStr s). split; [exact Hin |].
  simpl. now rewrite Es.
Qed.


Lemma load_data_Some parse_date (raw : DataFrame) :
  load_data parse_date (Some raw) =
  (dates <- to_datetime parse_date (map Date raw) ;;
   ret (normalize_country (assign with_Date (map (filled raw) raw) dates))).
Proof.
  unfold load_data. simpl. rewrite fill_means_map.
  rewrite (map_map (filled raw) Date). reflexivity.
Qed.



(** X1: load_data raises FileNotFoundError exactly when the file is
    missing. *)
Theorem load_data_file_not_found parse_date (file : option DataFrame) :
  load_data parse_date file = inl FileNotFoundError <-> file = None.
Proof.
  split; [| intros ->; reflexivity].
  destruct file as [raw |]; [| reflexivity].
  rewrite load_data_Some.
  destruct (to_datetime parse_date (map Date raw)) as [e | d] eqn:E; simpl.
  - apply to_datetime_errors in E as [-> _]. discriminate.
  - discriminate.
Qed.


(** X3: in the dataset load_data returns no Date cell holds text: a
    text is replaced by the timestamp it parses to, a missing date stays
    NaT. *)
Theorem load_data_dates parse_date (raw df : DataFrame) :
  load_data parse_date (Some raw) = inr df ->
  Forall2 (fun r r' =>
             date_parsed (Date r') = true /\
             (Date r = NaT -> Date r' = NaT) /\
             (forall s, Date r = DateStr s ->
                        exists t, parse_date s = Some t /\ Date r' = DateTime t))
          raw df.
Proof.
  intros E. apply load_data_rows in E as (raw' & [= <-] & H).
  revert H. apply Forall2_impl'. intros r r' (Hd & _).
  split; [eapply to_datetime_cell_parsed; eauto |]. split.
  - intros Hr. rewrite Hr in Hd. simpl in Hd. now injection Hd.
  - intros s Hr. rewrite Hr in Hd. simpl in Hd.
    destruct (parse_date s) as [t |]; [| discriminate].
    injection Hd as <-. eauto.
Qed.

(** The loaded dataset has no Country cell "United States". *)
Lemma replace_cell_not_old (c : option string) :
  replace_cell "United States" "United States of America" c
  <> Some "United States"%string.
Proof.
  destruct c as [s |]; simpl; [| discriminate].
  destruct (String.eqb_spec s "United States"); [discriminate |].
  intros [= ->]. contradiction.
Qed.

Lemma with_num_same (c : num_col) (r : Row) : with_num c r (num_cell c r) = r.
Proof. destruct c, r; reflexivity. Qed.

Lemma fill_cell_mean_loaded parse_date (raw df : DataFrame) (c : num_col) :
  Forall2 (loaded_row parse_date raw) raw df ->
  Forall (fun r' => fill_cell (mean (map (num_cell c) df)) (num_cell c r')
                    = num_cell c r') df.
Proof.
  intros H.
  destruct (mean (map (num_cell c) raw)) as [m |] eqn:Hm.
  - eapply Forall2_Forall_r; [exact H |].
    intros r r' _ (_ & _ & Hn & _). rewrite Hn, Hm.
    destruct (num_cell c r); reflexivity.
  - assert (Hcol : map (num_cell c) df = map (num_cell c) raw).
    { assert (H2 : Forall2 (fun r r' => num_cell c r' = num_cell c r) raw df).
      { revert H. apply Forall2_impl'. intros r r' (_ & _ & Hn & _).
        rewrite Hn, Hm. destruct (num_cell c r); reflexivity. }
      clear - H2. induction H2; simpl; congruence. }
    rewrite Hcol, Hm. apply Forall_forall. intros r' _.
    destruct (num_cell c r'); reflexivity.
Qed.

(** X4: cleaning is idempotent: load_data applied to a table that is
    already a loaded dataset returns it unchanged. *)
Theorem load_data_reload parse_date (raw df : DataFrame) :
  load_data parse_date (Some raw) = inr df ->
  load_data parse_date (Some df) = inr df.
Proof.
  intros E. pose proof (load_data_dates_parsed _ _ E) as Hd.
  apply load_data_rows in E as (raw' & [= <-] & H).
  rewrite load_data_Some, (to_datetime_parsed parse_date Hd). simpl.
  unfold ret. f_equal.
  assert (Ef : map (filled df) df = df).
  { rewrite <- (map_id df) at 3. apply map_ext_in. intros r Hr.
    pose proof (fill_cell_mean_loaded ColLaidOff H) as H1.
    pose proof (fill_cell_mean_loaded ColFunds H) as H2.
    pose proof (fill_cell_mean_loaded ColPercentage H) as H3.
    rewrite Forall_forall in H1, H2, H3.
    specialize (H1 r Hr). specialize (H2 r Hr). specialize (H3 r Hr).
    change (fill_cell (mean (map Laid_Off_Count df)) (Laid_Off_Count r)
            = Laid_Off_Count r) in H1.
    change (fill_cell (mean (map Funds_Raised df)) (Funds_Raised r)
            = Funds_Raised r) in H2.
    change (fill_cell (mean (map Percentage df)) (Percentage r)
            = Percentage r) in H3.
    unfold filled. rewrite H1, H2, H3.
    destruct r; reflexivity. }
  rewrite Ef, assign_Date_same, normalize_country_map.
  rewrite <- (map_id df) at 2. apply map_ext_in. intros r' Hr'.
  assert (Hc : Country r' <> Some "United States"%string).
  { assert (HF : Forall (fun r' => Country r' <> Some "United States"%string) df).
    { eapply Forall2_Forall_r; [exact H |].
      intros r r0 _ (_ & Hc & _). rewrite Hc. apply replace_cell_not_old. }
    rewrite Forall_forall in HF. now apply HF. }
  destruct r' as [co ind cn loc st d l f p]; simpl in *.
  destruct cn as [s |]; simpl; [| reflexivity].
  destruct (String.eqb_spec s "United States"); [subst; contradiction | reflexivity].
Qed.

(** ** Mean fill keeps the mean *)

Lemma Qsum_dropna_fillna (m : Q) (col : list (option Q)) :
  (Qsum (dropna (fillna (Some m) col))
   == Qsum (dropna col) + inject_Z (Z.of_nat (count_missing col)) * m)%Q /\
  List.length (dropna (fillna (Some m) col))
  = (List.length (dropna col) + count_missing col)%nat.
Proof.
  unfold count_missing. induction col as [| [v |] col [IHs IHl]]; simpl.
  - split; [ring | reflexivity].
  - split; [rewrite IHs; ring | now rewrite IHl].
  - split.
    + rewrite IHs, Zpos_P_of_succ_nat, <- Z.add_1_r, inject_Z_plus. ring.
    + rewrite IHl. lia.
Qed.

Lemma Forall2_map_eq {A B C : Type} (f : A -> C) (g : B -> C) l l' :
  Forall2 (fun a b => g b = f a) l l' -> map g l' = map f l.
Proof. induction 1; simpl; congruence. Qed.

Lemma loaded_column parse_date (raw df : DataFrame) (c : num_col) :
  Forall2 (loaded_row parse_date raw) raw df ->
  map (num_cell c) df = fillna (mean (map (num_cell c) raw)) (map (num_cell c) raw).
Proof.
  intros H. unfold fillna. rewrite map_map.
  apply Forall2_map_eq. revert H. apply Forall2_impl'.
  intros r r' (_ & _ & Hn & _). apply Hn.
Qed.

(** X5: mean imputation keeps the mean: a numeric column with a present
    value has the same mean in the loaded dataset as in the file. *)
Theorem load_data_keeps_mean parse_date (raw df : DataFrame) (c : num_col) (v : Q) :
  load_data parse_date (Some raw) = inr df ->
  In (Some v) (map (num_cell c) raw) ->
  exists m m' : Q,
    mean (map (num_cell c) raw) = Some m /\
    mean (map (num_cell c) df) = Some m' /\
    (m' == m)%Q.
Proof.
  intros E Hin. apply load_data_rows in E as (raw' & [= <-] & H).
  destruct (mean_spec _ _ Hin) as (m & Hm & Hmean).
  pose proof (loaded_column c H) as Hcol. rewrite Hm in Hcol.
  assert (Hin' : In (Some v) (map (num_cell c) df)).
  { rewrite Hcol. unfold fillna.
    change (Some v) with (fill_cell (Some m) (Some v)). now apply in_map. }
  destruct (mean_spec _ _ Hin') as (m' & Hm' & Hmean').
  exists m, m'. repeat split; auto.
  rewrite Hcol in Hmean'.
  destruct (Qsum_dropna_fillna m (map (num_cell c) raw)) as [Hs Hl].
  rewrite Hs, Hl, Nat2Z.inj_add, inject_Z_plus, <- Hmean in Hmean'.
  set (N := inject_Z (Z.of_nat (List.length (dropna (map (num_cell c) raw))))) in *.
  set (Kq := inject_Z (Z.of_nat (count_missing (map (num_cell c) raw)))) in *.
  assert (HN : (0 < N)%Q).
  { unfold N. apply In_dropna in Hin.
    destruct (dropna (map (num_cell c) raw)); [contradiction |].
    unfold Qlt; simpl. lia. }
  assert (HK : (0 <= Kq)%Q).
  { unfold Kq, Qle; simpl. lia. }
  assert (HNK : ~ (N + Kq == 0)%Q).
  { intros H0. assert (0 < N + Kq)%Q.
    { apply Qlt_le_trans with (N + 0)%Q; [now rewrite Qplus_0_r |].
      apply Qplus_le_r. exact HK. }
    rewrite H0 in H1. exact (Qlt_irrefl _ H1). }
  apply (Qmult_inj_r _ _ (N + Kq)%Q HNK). rewrite Hmean'. ring.
Qed.

(** * Further properties of the grouped sums *)

Section GroupSums.

Context {K : Type} `{KeyOk K}.

Lemma keqb_eq (a b : K) : keqb a b = true <-> a = b.
Proof.
  unfold keqb. rewrite <- kcompare_eq.
  destruct (kcompare a b); split; congruence.
Qed.

Lemma keqb_refl (a : K) : keqb a a = true.
Proof. now apply keqb_eq. Qed.

Lemma klt_keqb (a b : K) : klt a b -> keqb a b = false.
Proof. unfold klt, keqb. now intros ->. Qed.

Lemma find_sum_above (k : K) (acc : Series K) :
  Forall (fun e => klt k (fst e)) acc -> find_sum k acc = None.
Proof.
  induction 1 as [| [k' s] acc Hk _ IH]; simpl in *; [reflexivity |].
  now rewrite (klt_keqb Hk).
Qed.

Lemma agg_add_find (k k' : K) (v : Q) (acc : Series K) :
  keys_ascending fst acc ->
  find_sum k' (agg_add k v acc) =
  if keqb k' k
  then Some (match find_sum k acc with Some s => (s + v)%Q | None => v end)
  else find_sum k' acc.
Proof.
  unfold keys_ascending.
  induction 1 as [| [k0 s0] acc Hacc IH Hk0]; simpl.
  - destruct (keqb k' k); reflexivity.
  - destruct (kcompare k k0) eqn:C; simpl.
    + apply kcompare_eq in C. subst k0. rewrite keqb_refl.
      destruct (keqb k' k); reflexivity.
    + assert (Hn : find_sum k ((k0, s0) :: acc) = None).
      { apply find_sum_above. constructor; [exact C |].
        revert Hk0. apply Forall_impl. intros e He. unfold klt in *; simpl in *.
        eapply kcompare_trans; eauto. }
      simpl in Hn. rewrite Hn. destruct (keqb k' k); reflexivity.
    + assert (Hkk0 : keqb k k0 = false) by (unfold keqb; now rewrite C).
      rewrite Hkk0, IH.
      destruct (keqb k' k0) eqn:E0; [| reflexivity].
      apply keqb_eq in E0. subst k'.
      destruct (keqb k0 k) eqn:E1; [| reflexivity].
      apply keqb_eq in E1. subst k0. rewrite keqb_refl in Hkk0. discriminate.
Qed.

Lemma agg_add_Qsum (k : K) (v : Q) (acc : Series K) :
  (Qsum (map snd (agg_add k v acc)) == Qsum (map snd acc) + v)%Q.
Proof.
  induction acc as [| [k0 s0] acc IH]; simpl; [ring |].
  destruct (kcompare k k0); simpl; [ring | ring | rewrite IH; ring].
Qed.

Lemma group_step_sorted (acc : Series K) (kv : option K * option Q) :
  keys_ascending fst acc -> keys_ascending fst (group_step acc kv).
Proof.
  intros Hacc. unfold group_step. destruct (fst kv); [| exact Hacc].
  now apply agg_add_sorted.
Qed.

(** What the fold leaves under a key: the sum the key had, plus the
    values of the rows of that key; nothing when the key had no sum and
    has no row. *)
Lemma fold_group_step_find (k : K) (kvs : list (option K * option Q)) :
  forall acc, keys_ascending fst acc ->
  match find_sum k (fold_left group_step kvs acc) with
  | Some s =>
      (s == match find_sum k acc with Some b => b | None => 0 end
            + group_total k kvs)%Q /\
      (find_sum k acc <> None \/ existsb (is_key k) (map fst kvs) = true)
  | None =>
      find_sum k acc = None /\ existsb (is_key k) (map fst kvs) = false
  end.
Proof.
  unfold group_total.
  induction kvs as [| [ko vo] kvs IH]; intros acc Hacc; simpl.
  - destruct (find_sum k acc) as [b |]; split; auto; try ring.
    left; discriminate.
  - specialize (IH (group_step acc (ko, vo)) (group_step_sorted (ko, vo) Hacc)).
    destruct ko as [k1 |]; simpl.
    + change (group_step acc (Some k1, vo))
        with (agg_add k1 (match vo with Some v => v | None => 0%Q end) acc) in *.
      rewrite (agg_add_find k1 k _ Hacc) in IH.
      destruct (keqb k k1) eqn:E; simpl.
      * apply keqb_eq in E. subst k1.
        destruct (find_sum k (fold_left group_step kvs _)) as [s |].
        -- destruct IH as [IHs _]. split; [| now right].
           rewrite IHs. unfold nan_to_zero.
           destruct (find_sum k acc); destruct vo; ring.
        -- destruct IH as [IHn _]. discriminate.
      * exact IH.
    + change (group_step acc (None, vo)) with acc in *. exact IH.
Qed.

Lemma fold_group_step_Qsum (kvs : list (option K * option Q)) :
  forall acc,
  (Qsum (map snd (fold_left group_step kvs acc))
   == Qsum (map snd acc)
      + Qsum (map (fun kv => nan_to_zero (snd kv))
                  (filter (fun kv => has_key (fst kv)) kvs)))%Q.
Proof.
  induction kvs as [| [ko vo] kvs IH]; intros acc; simpl; [ring |].
  rewrite IH. destruct ko as [k1 |]; simpl.
  - change (group_step acc (Some k1, vo))
      with (agg_add k1 (match vo with Some v => v | None => 0%Q end) acc).
    rewrite agg_add_Qsum. unfold nan_to_zero. destruct vo; ring.
  - change (group_step acc (None, vo)) with acc. reflexivity.
Qed.

Lemma find_sum_In (k : K) (s : Q) (acc : Series K) :
  find_sum k acc = Some s -> In (k, s) acc.
Proof.
  induction acc as [| [k0 s0] acc IH]; simpl; [discriminate |].
  destruct (keqb k k0) eqn:E.
  - apply keqb_eq in E. intros [= ->]. subst. auto.
  - auto.
Qed.

Lemma In_find_sum (k : K) (s : Q) (acc : Series K) :
  keys_ascending fst acc -> In (k, s) acc -> find_sum k acc = Some s.
Proof.
  unfold keys_ascending.
  induction 1 as [| [k0 s0] acc Hacc IH Hk0]; simpl; [contradiction |].
  intros [[= -> ->] | Hin].
  - now rewrite keqb_refl.
  - rewrite Forall_forall in Hk0. specialize (Hk0 _ Hin). simpl in Hk0.
    destruct (keqb k k0) eqn:E; [| auto].
    apply keqb_eq in E. subst k0.
    unfold klt in Hk0. rewrite (proj2 (kcompare_eq k k) eq_refl) in Hk0.
    discriminate.
Qed.

Lemma keys_ascending_NoDup (acc : Series K) :
  keys_ascending fst acc -> NoDup (map fst acc).
Proof.
  unfold keys_ascending.
  induction 1 as [| [k0 s0] acc Hacc IH Hk0]; simpl; constructor; auto.
  intros Hin. apply in_map_iff in Hin as ([k1 s1] & Hk & Hin). simpl in Hk. subst k1.
  rewrite Forall_forall in Hk0. specialize (Hk0 _ Hin). simpl in Hk0.
  unfold klt in Hk0. rewrite (proj2 (kcompare_eq k0 k0) eq_refl) in Hk0.
  discriminate.
Qed.

Variables (key : Row -> option K) (val : Row -> option Q).

Lemma group_total_rows (k : K) (df : DataFrame) :
  (group_total k (map (fun r => (key r, val r)) df)
   == series_sum (map val (filter (fun r => is_key k (key r)) df)))%Q.
Proof.
  unfold group_total. rewrite <- Qsum_nan_to_zero.
  induction df as [| r df IH]; simpl; [reflexivity |].
  destruct (is_key k (key r)); simpl; now rewrite IH.
Qed.

Lemma existsb_is_key (k : K) (df : DataFrame) :
  existsb (is_key k) (map fst (map (fun r => (key r, val r)) df)) = true <->
  In (Some k) (map key df).
Proof.
  rewrite map_map. simpl. rewrite existsb_exists. split.
  - intros (c & Hin & Hc). destruct c as [k' |]; simpl in Hc; [| discriminate].
    apply keqb_eq in Hc. now subst.
  - intros Hin. exists (Some k). split; [exact Hin | apply keqb_refl].
Qed.

(** A group of the grouped table: its key occurs in the frame, its sum
    is the sum of the present values of the rows of that key; and every
    key of the frame has its group. *)
Lemma groupby_sum_groups (df : DataFrame) (k : K) :
  (forall s, In (k, s) (groupby_sum (map key df) (map val df)) ->
             In (Some k) (map key df) /\
             (s == series_sum (map val (filter (fun r => is_key k (key r)) df)))%Q) /\
  (In (Some k) (map key df) ->
   exists s, In (k, s) (groupby_sum (map key df) (map val df))).
Proof.
  rewrite groupby_sum_fold, combine_map_map.
  pose proof (fold_group_step_find k (map (fun r => (key r, val r)) df)
                (acc := []) (SSorted_nil _)) as Hf.
  assert (Hs : keys_ascending fst
                 (fold_left group_step (map (fun r => (key r, val r)) df) [])).
  { rewrite <- combine_map_map, <- groupby_sum_fold. apply groupby_sum_sorted. }
  split.
  - intros s Hin. apply In_find_sum in Hin; [| exact Hs].
    rewrite Hin in Hf. simpl in Hf.
    destruct Hf as [Hsum [Habs | Hex]]; [contradiction |].
    split; [now apply existsb_is_key |].
    rewrite Hsum, group_total_rows. ring.
  - intros Hin. apply existsb_is_key in Hin.
    destruct (find_sum k (fold_left group_step _ [])) as [s |] eqn:E.
    + exists s. now apply find_sum_In.
    + destruct Hf as [_ Hf]. rewrite Hin in Hf. discriminate.
Qed.

Lemma groupby_sum_total (df : DataFrame) :
  (Qsum (map snd (groupby_sum (map key df) (map val df)))
   == series_sum (map val (filter (fun r => has_key (key r)) df)))%Q.
Proof.
  rewrite groupby_sum_fold, combine_map_map, fold_group_step_Qsum. simpl.
  rewrite <- Qsum_nan_to_zero, Qplus_0_l.
  induction df as [| r df IH]; simpl; [reflexivity |].
  destruct (has_key (key r)); simpl; now rewrite IH.
Qed.

End GroupSums.

(** * Further properties of the views *)

Lemma is_key_eq_cell (c : string) (x : option string) :
  is_key c x = eq_cell x (Some c).
Proof.
  destruct x as [s |]; simpl; [| reflexivity].
  destruct (String.eqb_spec s c) as [-> | Hne].
  - apply keqb_refl.
  - destruct (keqb c s) eqn:E; [| reflexivity].
    apply keqb_eq in E. congruence.
Qed.

Lemma country_layoffs_rows (df : DataFrame) :
  map snd (country_layoffs df)
  = sort_values_desc snd (groupby_sum (map Country df) (map Laid_Off_Count df)).
Proof.
  unfold country_layoffs, value_of.
  rewrite (sort_values_desc_map (@snd nat (string * Q)) snd).
  now rewrite map_snd_reset_index.
Qed.

Lemma country_layoffs_perm (df : DataFrame) :
  Permutation (map snd (country_layoffs df))
              (groupby_sum (map Country df) (map Laid_Off_Count df)).
Proof.
  rewrite country_layoffs_rows. symmetry. apply sort_values_desc_perm.
Qed.

(** X6: the all-countries view has exactly one row for each country
    that occurs in the dataset (records without a country are left
    out); when no sum of the Laid_Off_Count column leaves the range of
    int64, the value of a row is in that range and is the sum of the
    present Laid_Off_Count of the records of that country. *)
Theorem country_layoffs_one_row_per_country (df : DataFrame) :
  NoDup (map key_of (country_layoffs df)) /\
  (forall c, In c (map key_of (country_layoffs df)) <-> In (Some c) (map Country df)) /\
  (sums_fit_int64 (map Laid_Off_Count df) ->
   forall r, In r (country_layoffs df) ->
             fits_int64 (value_of r) /\
             (value_of r
              == series_sum (map Laid_Off_Count
                               (filter (fun x => eq_cell (Country x) (Some (key_of r)))
                                       df)))%Q).
Proof.
  pose proof (country_layoffs_perm df) as P.
  set (g := groupby_sum (map Country df) (map Laid_Off_Count df)) in *.
  assert (Ek : map key_of (country_layoffs df) = map fst (map snd (country_layoffs df))).
  { rewrite map_map. reflexivity. }
  split; [| split].
  - rewrite Ek. apply (Permutation_NoDup (l := map fst g)).
    + symmetry. now apply Permutation_map.
    + apply keys_ascending_NoDup. apply groupby_sum_sorted.
  - intros c. rewrite Ek. split.
    + intros Hin. apply in_map_iff in Hin as ([c' s] & Hc & Hin). simpl in Hc. subst c'.
      apply (Permutation_in _ P) in Hin.
      now apply (groupby_sum_groups Country Laid_Off_Count df c) in Hin.
    + intros Hin.
      apply (groupby_sum_groups Country Laid_Off_Count df c) in Hin as (s & Hin).
      apply (Permutation_in _ (Permutation_sym P)) in Hin.
      apply in_map_iff. exists (c, s). auto.
  - intros Hfit [i [c s]] Hin. unfold value_of, key_of; simpl.
    assert (Hg : In (c, s) g).
    { apply (Permutation_in _ P). apply in_map_iff. exists (i, (c, s)). auto. }
    split; [exact (group_sum_fits_int64 Country Laid_Off_Count df (c, s) Hfit Hg) |].
    apply (groupby_sum_groups Country Laid_Off_Count df c) in Hg as [_ Hs].
    rewrite Hs. erewrite filter_ext; [reflexivity |].
    intros x. apply is_key_eq_cell.
Qed.

(** X7: when no sum of the Laid_Off_Count column leaves the range of
    int64, the values of the all-countries view add up, within that
    range, to the sum of the present Laid_Off_Count of the records that
    have a country: grouping and sorting lose no layoff and invent
    none. *)
Theorem country_layoffs_total (df : DataFrame) :
  sums_fit_int64 (map Laid_Off_Count df) ->
  fits_int64 (Qsum (map value_of (country_layoffs df))) /\
  (Qsum (map value_of (country_layoffs df))
   == series_sum (map Laid_Off_Count (filter (fun r => has_key (Country r)) df)))%Q.
Proof.
  intros Hfit.
  replace (map value_of (country_layoffs df))
    with (map snd (map snd (country_layoffs df))) by (rewrite map_map; reflexivity).
  split.
  - rewrite <- (firstn_all (map snd (country_layoffs df))).
    apply (group_sums_fit_int64 Country Laid_Off_Count df _ Hfit).
    apply country_layoffs_perm.
  - rewrite (Qsum_perm (Permutation_map snd (country_layoffs_perm df))).
    apply groupby_sum_total.
Qed.

Lemma StronglySorted_app_cross {A : Type} (R : A -> A -> Prop) (l1 l2 : list A) :
  StronglySorted R (l1 ++ l2) -> forall a b, In a l1 -> In b l2 -> R a b.
Proof.
  induction l1 as [| x l1 IH]; simpl; intros Hs a b Ha Hb; [contradiction |].
  inversion Hs as [| ? ? Hs' Hx]; subst. destruct Ha as [-> | Ha].
  - rewrite Forall_forall in Hx. apply Hx. apply in_or_app. now right.
  - now apply (IH Hs').
Qed.

(** The rows that [head n] keeps of a sorted table are at least as large
    as the rows it drops. *)
Lemma head_keeps_largest {A : Type} (val : A -> Q) (n : nat) (l : list A) (a b : A) :
  In a (head n (sort_values_desc val l)) ->
  In b l -> ~ In b (head n (sort_values_desc val l)) ->
  (val b <= val a)%Q.
Proof.
  unfold head. intros Ha Hb Hnb.
  pose proof (sort_values_desc_descending val l) as Hd. unfold descending in Hd.
  rewrite <- (firstn_skipn n (sort_values_desc val l)) in Hd.
  pose proof (@StronglySorted_app_cross _ _ _ _ Hd a b Ha) as Hc.
  simpl in Hc. apply Hc.
  apply (proj2 (sort_values_desc_In val l b)) in Hb.
  rewrite <- (firstn_skipn n (sort_values_desc val l)) in Hb.
  apply in_app_or in Hb as [Hb | Hb]; [contradiction | exact Hb].
Qed.

Lemma length_reset_index {K : Type} (s : Series K) :
  List.length (reset_index s) = List.length s.
Proof.
  rewrite <- (map_snd_reset_index s) at 2. now rewrite length_map.
Qed.

(** X8: the top-5-countries view keeps the countries with the largest
    sums: it has five rows, or all countries when there are fewer, and
    no row of the all-countries view that it leaves out has a larger
    value than a row it keeps. *)
Theorem top_countries_keeps_largest (df : DataFrame) :
  List.length (top_countries df) = Nat.min 5 (List.length (country_layoffs df)) /\
  forall a b, In a (top_countries df) -> In b (country_layoffs df) ->
              ~ In (snd b) (map snd (top_countries df)) ->
              (value_of b <= value_of a)%Q.
Proof.
  split.
  - unfold top_countries, head, country_layoffs.
    now rewrite length_reset_index, length_firstn, !length_sort_values_desc,
      length_reset_index.
  - intros a b Ha Hb Hnb. unfold top_countries in *.
    rewrite map_snd_reset_index in Hnb.
    apply (in_map snd) in Ha, Hb. rewrite map_snd_reset_index in Ha.
    rewrite country_layoffs_rows in Hb. apply sort_values_desc_In in Hb.
    exact (head_keeps_largest snd 5 _ _ _ Ha Hb Hnb).
Qed.

(** X9: the same for the top-10-companies and the top-5-industries
    tables: a group that is left out has no larger sum than a group
    that is kept. *)
Theorem top_companies_keeps_largest (df : DataFrame) :
  (List.length (top_companies df) <= 10)%nat /\
  (List.length (top_industries_recent df) <= 5)%nat /\
  (forall a g, In a (top_companies df) ->
               In g (groupby_sum (map Company df) (map Laid_Off_Count df)) ->
               ~ In g (map snd (top_companies df)) ->
               (snd g <= value_of a)%Q) /\
  (forall a g, In a (top_industries_recent df) ->
               In g (groupby_sum (map Industry df) (map Laid_Off_Count df)) ->
               ~ In g (map snd (top_industries_recent df)) ->
               (snd g <= value_of a)%Q).
Proof.
  unfold top_companies, top_industries_recent.
  rewrite !length_reset_index, !map_snd_reset_index. unfold head at 1 2.
  split; [apply firstn_le_length |]. split; [apply firstn_le_length |].
  split; intros a g Ha Hg Hng; apply (in_map snd) in Ha;
    rewrite map_snd_reset_index in Ha;
    exact (head_keeps_largest snd _ _ _ _ Ha Hg Hng).
Qed.

(** * Further properties of the filters and of the script *)

Lemma eq_cell_true (x f : option string) :
  eq_cell x f = true <-> exists s, x = Some s /\ f = Some s.
Proof.
  destruct x as [a |], f as [b |]; simpl; split;
    try discriminate; try (intros (s & H1 & H2); discriminate).
  - intros E. apply String.eqb_eq in E. subst. eauto.
  - intros (s & [= ->] & [= ->]). apply String.eqb_refl.
Qed.

(** X10: the slice of line 47 holds exactly the records whose Industry
    and Country are present and equal to the two selections; a missing
    selection (the NaN entry of the Industry box) matches no record, not
    even a record whose Industry is missing. *)
Theorem df_filtered_rows (df : DataFrame) (industry_filter country_filter : option string) :
  (forall r, In r (df_filtered df industry_filter country_filter) <->
             In r df /\
             exists a b, industry_filter = Some a /\ country_filter = Some b /\
                         Industry r = Some a /\ Country r = Some b) /\
  df_filtered df None country_filter = [] /\
  df_filtered df industry_filter None = [].
Proof.
  assert (M : forall i c r, In r (df_filtered df i c) <->
              In r df /\
              exists a b, i = Some a /\ c = Some b /\
                          Industry r = Some a /\ Country r = Some b).
  { intros i c r. rewrite df_filtered_filter, filter_In, andb_true_iff, !eq_cell_true.
    split.
    - intros (Hin & (a & Ha & Hi) & (b & Hb & Hc)). split; [exact Hin |].
      exists a, b. auto.
    - intros (Hin & a & b & Hi & Hc & Ha & Hb). split; [exact Hin |].
      split; [exists a | exists b]; auto. }
  split; [apply M |]. split.
  - destruct (df_filtered df None country_filter) as [| r l] eqn:E; [reflexivity |].
    assert (Hin : In r (df_filtered df None country_filter)) by (rewrite E; simpl; auto).
    apply M in Hin as (_ & a & b & Hi & _). discriminate.
  - destruct (df_filtered df industry_filter None) as [| r l] eqn:E; [reflexivity |].
    assert (Hin : In r (df_filtered df industry_filter None)) by (rewrite E; simpl; auto).
    apply M in Hin as (_ & a & b & _ & Hc & _). discriminate.
Qed.

Lemma existsb_seen (c : option string) (seen : list (option string)) :
  existsb (fun d => match c, d with
                    | Some a, Some b => String.eqb a b
                    | None, None => true
                    | _, _ => false
                    end) seen = true <-> In c seen.
Proof.
  rewrite existsb_exists. split.
  - intros (d & Hin & Hd). destruct c as [a |], d as [b |]; try discriminate; auto.
    apply String.eqb_eq in Hd. now subst.
  - intros Hin. exists c. split; [exact Hin |].
    destruct c; [apply String.eqb_refl | reflexivity].
Qed.

Lemma unique_aux_spec (col seen : list (option string)) :
  NoDup (unique_aux seen col) /\
  forall c, In c (unique_aux seen col) <-> In c col /\ ~ In c seen.
Proof.
  revert seen. induction col as [| x col IH]; intros seen; simpl.
  - split; [constructor | intros c; tauto].
  - destruct (existsb _ seen) eqn:E.
    + apply existsb_seen in E. destruct (IH seen) as [Hnd Hin].
      split; [exact Hnd |]. intros c. rewrite Hin. split.
      * tauto.
      * intros [[-> | Hc] Hs]; [contradiction | tauto].
    + assert (Hx : ~ In x seen).
      { intros Hx. apply existsb_seen in Hx. congruence. }
      destruct (IH (x :: seen)) as [Hnd Hin]. split.
      * constructor; [| exact Hnd]. rewrite Hin. simpl. tauto.
      * intros c. simpl. rewrite Hin. simpl.
        assert (Hdec : x = c \/ x <> c).
        { destruct x as [a |], c as [b |]; try (right; discriminate); auto.
          destruct (string_dec a b); [left; congruence | right; congruence]. }
        split.
        -- intros [<- | (Hc & Hs)]; [auto | tauto].
        -- intros ([<- | Hc] & Hs); [auto |].
           destruct Hdec as [-> | Hne]; [auto | right; tauto].
Qed.

(** X11: the options of the Industry select box are the distinct
    Industry cells of the dataset, each once; with the two select boxes a
    run filters by an Industry cell of the dataset and by one of the two
    listed countries (or by nothing, when the box has no such entry). *)
Theorem run_filters_from_the_boxes parse_date (file : option DataFrame) (w : Widgets)
        (env : Env.t) (memo : option DataFrame) :
  run parse_date file w None = inr (env, memo) ->
  NoDup (unique (map Industry (Env.df env))) /\
  (forall c, In c (unique (map Industry (Env.df env))) <->
             In c (map Industry (Env.df env))) /\
  (Env.industry_filter env = None \/
   In (Env.industry_filter env) (map Industry (Env.df env))) /\
  (Env.country_filter env = None \/
   exists c, In c country_options /\ Env.country_filter env = Some c).
Proof.
  intros E. unfold run in E.
  apply bind_inr in E as ([df m] & El & E). simpl in E.
  apply bind_inr in E as (env' & Ed & E). injection E as <- <-.
  simpl in El. apply bind_inr in El as (df' & El & [= <- <-]).
  apply load_data_dates_parsed in El.
  rewrite (dashboard_parsed parse_date _ _ El) in Ed. injection Ed as <-. simpl.
  destruct (unique_aux_spec (map Industry df') []) as [Hnd Hin].
  fold (unique (map Industry df')) in Hnd, Hin.
  assert (Hu : forall c, In c (unique (map Industry df')) <-> In c (map Industry df')).
  { intros c. rewrite Hin. simpl. tauto. }
  split; [exact Hnd |]. split; [exact Hu |]. split.
  - unfold selectbox.
    destruct (nth_error (unique (map Industry df')) (pick_industry w)) as [c |] eqn:En;
      [| now left].
    right. apply Hu. eapply nth_error_In; eauto.
  - unfold selectbox.
    destruct (nth_error country_options (pick_country w)) as [c |] eqn:En;
      [| now left].
    right. exists c. split; [exact (nth_error_In _ _ En) | reflexivity].
Qed.

Lemma mapM_inl_Exists {A B : Type} (f : A -> result B) (e0 : exn) (l : list A) :
  (forall a e, f a = inl e -> e = e0) ->
  Exists (fun a => exists e, f a = inl e) l ->
  mapM f l = inl e0.
Proof.
  intros Hf. induction l as [| a l IH]; intros Hex; [inversion Hex |]. simpl.
  destruct (f a) as [e | b] eqn:Ea; simpl.
  - now rewrite (Hf a e Ea).
  - inversion Hex as [? ? (e & He) | ? ? Hex']; subst; [congruence |].
    now rewrite (IH Hex').
Qed.

(** X12: the views need the dates parsed: on a table in which a Date
    cell still holds text the script raises AttributeError, at the first
    use of the .dt accessor, whatever the filters are. *)
Theorem dashboard_needs_parsed_dates parse_date (df : DataFrame)
        (industry_filter country_filter : option string) :
  Exists (fun r => exists s, Date r = DateStr s) df ->
  dashboard parse_date df industry_filter country_filter = inl AttributeError.
Proof.
  intros Hex. unfold dashboard, df_recent_years.
  assert (E : dt_year (map Date df) = inl AttributeError).
  { unfold dt_year. apply mapM_inl_Exists.
    - intros [s | t |] e Hc; inversion Hc; reflexivity.
    - apply Exists_map. revert Hex. apply Exists_impl.
      intros r (s & ->). exists AttributeError. reflexivity. }
  rewrite E. reflexivity.
Qed.


(** X14: the cache is never invalidated: once a dataset is cached, a
    rerun does not read the file, and succeeds on the cached dataset
    even when the file is gone. *)
Theorem run_on_cache_ignores_file parse_date (file : option DataFrame) (df : DataFrame)
        (w : Widgets) :
  load_data parse_date file = inr df ->
  exists env,
    run parse_date None w (Some df) = inr (env, Some df) /\
    Env.df env = df /\
    load_data parse_date None = inl FileNotFoundError.
Proof.
  intros El. apply load_data_dates_parsed in El.
  unfold run. simpl.
  rewrite (dashboard_parsed parse_date _ _ El). simpl. eauto.
Qed.

(** X15: the loaded dataset has no Country cell "United States", and
    neither country view has a row for it: its records are counted
    under "United States of America". *)
Theorem loaded_dataset_has_one_spelling parse_date (file : option DataFrame) (df : DataFrame) :
  load_data parse_date file = inr df ->
  Forall (fun r => Country r <> Some "United States"%string) df /\
  ~ In "United States"%string (map key_of (country_layoffs df)) /\
  ~ In "United States"%string (map key_of (top_countries df)).
Proof.
  intros E. apply load_data_rows in E as (raw & _ & H).
  assert (HF : Forall (fun r => Country r <> Some "United States"%string) df).
  { eapply Forall2_Forall_r; [exact H |].
    intros r r0 _ (_ & Hc & _). rewrite Hc. apply replace_cell_not_old. }
  assert (Hg : forall s, ~ In ("United States"%string, s)
                           (groupby_sum (map Country df) (map Laid_Off_Count df))).
  { intros s Hin.
    apply (groupby_sum_groups Country Laid_Off_Count df) in Hin as [Hin _].
    apply in_map_iff in Hin as (r & Hr & Hin).
    rewrite Forall_forall in HF. exact (HF r Hin Hr). }
  split; [exact HF |]. split.
  - intros Hin. apply in_map_iff in Hin as ([i [c s]] & Hc & Hin).
    unfold key_of in Hc; simpl in Hc. subst c.
    apply (in_map snd) in Hin. simpl in Hin.
    apply (Permutation_in _ (country_layoffs_perm df)) in Hin.
    exact (Hg s Hin).
  - intros Hin. apply in_map_iff in Hin as ([i [c s]] & Hc & Hin).
    unfold key_of in Hc; simpl in Hc. subst c.
    apply (in_map snd) in Hin. simpl in Hin.
    unfold top_countries in Hin. rewrite map_snd_reset_index in Hin.
    apply In_head in Hin.
    apply sort_values_desc_In in Hin. exact (Hg s Hin).
Qed.

(** ** Rows of the derived tables *)

Lemma group_has_row {K : Type} `{KeyOk K} (key : Row -> option K) (val : Row -> option Q)
      (df : DataFrame) (k : K) (s : Q) :
  In (k, s) (groupby_sum (map key df) (map val df)) ->
  exists x, In x df /\ key x = Some k.
Proof.
  intros Hin. apply (groupby_sum_groups key val df) in Hin as [Hin _].
  apply in_map_iff in Hin as (x & Hx & Hin). eauto.
Qed.

Lemma agg_add_nonneg {K : Type} `{Key K} (k : K) (v : Q) (acc : Series K) :
  (0 <= v)%Q -> Forall (fun e => (0 <= snd e)%Q) acc ->
  Forall (fun e => (0 <= snd e)%Q) (agg_add k v acc).
Proof.
  intros Hv. induction 1 as [| [k0 s0] acc Hs Hacc IH]; simpl.
  - repeat constructor. exact Hv.
  - destruct (kcompare k k0); repeat constructor; auto.
    simpl in *. rewrite <- (Qplus_0_r 0). now apply Qplus_le_compat.
Qed.

Lemma groupby_sum_nonneg {K : Type} `{Key K}
      (keys : list (option K)) (vals : list (option Q)) :
  Forall nonneg_cell vals ->
  Forall (fun e => (0 <= snd e)%Q) (groupby_sum keys vals).
Proof.
  intros Hv. rewrite groupby_sum_fold.
  assert (Hkv : Forall (fun kv : option K * option Q => nonneg_cell (snd kv))
                       (combine keys vals)).
  { apply Forall_forall. intros [k v] Hin. apply in_combine_r in Hin.
    rewrite Forall_forall in Hv. now apply Hv. }
  clear Hv. generalize (@nil (K * Q)) (Forall_nil (fun e : K * Q => (0 <= snd e)%Q)).
  induction Hkv as [| [ko vo] kvs Hv _ IH]; intros acc Hacc; simpl; [exact Hacc |].
  apply IH. unfold group_step; simpl. destruct ko as [k |]; [| exact Hacc].
  apply agg_add_nonneg; [| exact Hacc].
  destruct vo as [v |]; [exact Hv | apply Qle_refl].
Qed.

(** X16: when no Laid_Off_Count of the frame is negative and no sum of
    the column leaves the range of int64, every Percentage of the top-50
    table is a number between 0 and 100 or NaN, never an infinity, and
    it is NaN only when the total of the table is zero. *)
Theorem top_companies_data_percentage_bounds (d : DataFrame) :
  Forall (fun r => nonneg_cell (Laid_Off_Count r)) d ->
  sums_fit_int64 (map Laid_Off_Count d) ->
  fits_int64 (Qsum (map data_count (top_companies_data d))) /\
  Forall (fun r => match data_percentage r with
                   | Finite p => (0 <= p)%Q /\ (p <= 100)%Q
                   | Inf _ => False
                   | NaN => (Qsum (map data_count (top_companies_data d)) == 0)%Q
                   end)
         (top_companies_data d).
Proof.
  intros Hd Hfit.
  set (g := groupby_sum (map key4 d) (map Laid_Off_Count d)).
  set (s := head 50 (sort_values_desc value_of (reset_index g))).
  set (total := Qsum (map value_of s)).
  assert (Ev : top_companies_data d
               = map (fun r => (fst r, (snd r, percent_of total (value_of r)))) s)
    by reflexivity.
  assert (Et : Qsum (map data_count (top_companies_data d)) = total).
  { rewrite Ev, map_map. reflexivity. }
  rewrite Et, Ev. clear Et Ev. split.
  { unfold total, s.
    replace (map value_of (head 50 (sort_values_desc value_of (reset_index g))))
      with (map snd (head 50 (map snd (sort_values_desc value_of (reset_index g)))))
      by (unfold head; now rewrite firstn_map, map_map).
    apply (group_sums_fit_int64 key4 Laid_Off_Count d 50 Hfit).
    apply frame_rows_perm. }
  assert (Hs : Forall (fun y => (0 <= y)%Q) (map value_of s)).
  { apply Forall_map, Forall_forall. intros r Hr. unfold s in Hr.
    apply In_head, sort_values_desc_In, In_reset_index in Hr.
    assert (Hg : Forall (fun e : string * string * string * string * Q => (0 <= snd e)%Q) g).
    { apply groupby_sum_nonneg. now apply Forall_map. }
    rewrite Forall_forall in Hg. exact (Hg _ Hr). }
  apply Forall_map, Forall_forall. intros r Hr.
  unfold data_percentage, percent_of; simpl.
  assert (Hx0 : (0 <= value_of r)%Q).
  { rewrite Forall_forall in Hs. apply Hs. now apply in_map. }
  assert (Hxt : (value_of r <= total)%Q).
  { apply Qsum_ge_elem; [exact Hs | now apply in_map]. }
  destruct (Qeq_bool total 0) eqn:E.
  - apply Qeq_bool_iff in E.
    assert (Hx : (value_of r == 0)%Q) by lra.
    apply Qeq_alt in Hx. rewrite Hx. exact E.
  - assert (Ht : (0 < total)%Q).
    { assert (H0 : (0 <= total)%Q) by (eapply Qle_trans; eauto).
      apply Qle_lt_or_eq in H0 as [H0 | H0]; [exact H0 |].
      symmetry in H0. apply Qeq_bool_iff in H0. congruence. }
    split.
    + apply Qmult_le_0_compat; [| discriminate].
      apply Qle_shift_div_l; [exact Ht |]. now rewrite Qmult_0_l.
    + setoid_replace 100%Q with (1 * 100)%Q at 2 by ring.
      apply Qmult_le_compat_r; [| discriminate].
      apply Qle_shift_div_r; [exact Ht |]. now rewrite Qmult_1_l.
Qed.

Lemma isin_str_In (c : option string) (l : list string) :
  isin_str c l = true -> exists a, c = Some a /\ In a l.
Proof.
  destruct c as [a |]; simpl; [| discriminate].
  intros E. apply existsb_exists in E as (b & Hin & Hb).
  apply String.eqb_eq in Hb. subst. eauto.
Qed.

(** X17: the stage table has at most four rows, one for each of the
    four stages of the pie chart that occurs in the dataset, and no row
    for any other stage. *)
Theorem stage_layoffs_valid_stages (df : DataFrame) :
  (List.length (stage_layoffs df) <= 4)%nat /\
  NoDup (map key_of (stage_layoffs df)) /\
  forall st, In st (map key_of (stage_layoffs df)) <->
             In st valid_stages /\ In (Some st) (map Stage df).
Proof.
  unfold stage_layoffs. rewrite mask_rows_map.
  set (t := filter (fun r => isin_str (Stage r) valid_stages) df).
  set (g := groupby_sum (map Stage t) (map Laid_Off_Count t)).
  assert (Ek : map key_of (reset_index g) = map fst g).
  { rewrite <- (map_snd_reset_index g) at 2. now rewrite map_map. }
  assert (Hnd : NoDup (map fst g)).
  { apply keys_ascending_NoDup, groupby_sum_sorted. }
  assert (Hin : forall st, In st (map fst g) <->
                           In st valid_stages /\ In (Some st) (map Stage df)).
  { intros st. split.
    - intros H. apply in_map_iff in H as ([k s] & Hk & H). simpl in Hk. subst k.
      apply group_has_row in H as (x & Hx & Hst).
      apply filter_In in Hx as [Hx Hv]. rewrite Hst in Hv.
      apply isin_str_In in Hv as (a & [= <-] & Ha).
      split; [exact Ha |]. rewrite <- Hst. now apply in_map.
    - intros [Hv Hs]. apply in_map_iff in Hs as (x & Hst & Hx).
      assert (Ht : In (Some st) (map Stage t)).
      { rewrite <- Hst. apply in_map. apply filter_In. split; [exact Hx |].
        rewrite Hst. unfold isin_str. apply existsb_exists. exists st.
        split; [exact Hv | apply String.eqb_refl]. }
      apply (groupby_sum_groups Stage Laid_Off_Count t st) in Ht as (s & Ht).
      apply in_map_iff. exists (st, s). auto. }
  rewrite Ek. split; [| split; [exact Hnd | exact Hin]].
  rewrite <- (length_map key_of), Ek.
  change 4%nat with (List.length valid_stages).
  apply NoDup_incl_length; [exact Hnd |].
  intros st H. now apply Hin in H.
Qed.

Lemma is_key_year (y : Z) (c : date_cell) : is_key y (year_of c) = year_is y c.
Proof.
  unfold year_is. destruct (year_of c) as [z |]; simpl; [| reflexivity].
  unfold keqb; simpl. rewrite Z.eqb_compare, Z.compare_antisym.
  destruct (z ?= y)%Z; reflexivity.
Qed.

Lemma isin_year_2022_2023 (y : option Z) :
  isin_year y [2022; 2023]%Z = true -> y = Some 2022%Z \/ y = Some 2023%Z.
Proof.
  destruct y as [z |]; simpl; [| discriminate].
  rewrite !orb_true_iff, !Z.eqb_eq. intros [-> | [-> | H]]; auto. discriminate.
Qed.

Lemma year_ge_2020 (y : option Z) :
  year_ge y 2020 = true -> exists z, y = Some z /\ (2020 <= z)%Z.
Proof.
  destruct y as [z |]; simpl; [| discriminate].
  intros E. apply Z.leb_le in E. eauto.
Qed.

(** X18: the top-5-industries table of 2022 and 2023 has at most five
    rows, never a row for the industry "Other", and every industry it
    shows has a record dated 2022 or 2023. *)
Theorem top_industries_recent_rows parse_date (file : option DataFrame) (df : DataFrame)
        (industry_filter country_filter : option string) :
  load_data parse_date file = inr df ->
  exists env,
    dashboard parse_date df industry_filter country_filter = inr env /\
    (List.length (Env.top_industries_recent env) <= 5)%nat /\
    forall r, In r (Env.top_industries_recent env) ->
              key_of r <> "Other"%string /\
              exists x, In x df /\ Industry x = Some (key_of r) /\
                        (year_of (Date x) = Some 2022%Z \/ year_of (Date x) = Some 2023%Z).
Proof.
  intros E. apply load_data_dates_parsed in E.
  eexists. split; [apply (dashboard_parsed parse_date _ _ E) |]. simpl.
  unfold top_industries_recent. split.
  - rewrite length_reset_index. apply firstn_le_length.
  - intros [n [k s]] Hr. unfold key_of; simpl.
    apply In_reset_index, In_head, sort_values_desc_In in Hr. simpl in Hr.
    apply group_has_row in Hr as (x & Hx & Hk).
    apply filter_In in Hx as [Hx Hp]. apply andb_true_iff in Hp as [Hy Ho].
    rewrite Hk in Ho. simpl in Ho. split.
    + intros ->. discriminate.
    + exists x. repeat split; auto. now apply isin_year_2022_2023.
Qed.

(** X19: the yearly table lists the years of the selected records,
    every year once and in ascending order: a year is listed exactly
    when a selected record is dated in it.  When no sum of the
    Laid_Off_Count column leaves the range of int64, the value of a year
    is in that range and is the sum of the present Laid_Off_Count of the
    selected records of that year. *)
Theorem df_time_series_by_year parse_date (file : option DataFrame) (df : DataFrame)
        (industry_filter country_filter : option string) :
  load_data parse_date file = inr df ->
  exists env,
    dashboard parse_date df industry_filter country_filter = inr env /\
    StronglySorted (fun a b => (key_of a < key_of b)%Z) (Env.df_time_series env) /\
    (forall y, In y (map key_of (Env.df_time_series env)) <->
               exists x, In x (df_filtered df industry_filter country_filter) /\
                         year_of (Date x) = Some y) /\
    (sums_fit_int64 (map Laid_Off_Count df) ->
     forall r, In r (Env.df_time_series env) ->
       fits_int64 (value_of r) /\
       (value_of r
        == series_sum (map Laid_Off_Count
                         (filter (fun x => year_is (key_of r) (Date x))
                                 (df_filtered df industry_filter country_filter))))%Q).
Proof.
  intros E. apply load_data_dates_parsed in E.
  eexists. split; [apply (dashboard_parsed parse_date _ _ E) |]. simpl.
  set (d := df_filtered df industry_filter country_filter).
  unfold yearly_sums.
  set (g := groupby_sum (map (fun r => year_of (Date r)) d) (map Laid_Off_Count d)).
  split; [| split].
  - exact (reset_index_keys_ascending
             (groupby_sum_sorted (map (fun r => year_of (Date r)) d)
                                 (map Laid_Off_Count d))).
  - intros y.
    replace (map key_of (reset_index g)) with (map fst g)
      by (rewrite <- (map_snd_reset_index g) at 1; now rewrite map_map).
    split.
    + intros Hin. apply in_map_iff in Hin as ([y' s] & Hy & Hin). simpl in Hy. subst y'.
      now apply group_has_row in Hin.
    + intros (x & Hx & Hy).
      assert (Hin : In (Some y) (map (fun r => year_of (Date r)) d)).
      { rewrite <- Hy. now apply (in_map (fun r => year_of (Date r))). }
      apply (groupby_sum_groups (fun r => year_of (Date r)) Laid_Off_Count d y) in Hin
        as (s & Hin).
      apply in_map_iff. exists (y, s). auto.
  - intros Hfit [n [y s]] Hr. unfold key_of, value_of; simpl.
    apply In_reset_index in Hr. simpl in Hr. split.
    + apply (group_sum_fits_int64 (fun r => year_of (Date r)) Laid_Off_Count d (y, s));
        [| exact Hr].
      unfold d. rewrite df_filtered_filter. now apply sums_fit_int64_filter.
    + apply (groupby_sum_groups (fun r => year_of (Date r)) Laid_Off_Count d y) in Hr
        as [_ Hs].
      rewrite Hs. erewrite filter_ext; [reflexivity |].
      intros x. apply is_key_year.
Qed.

(** X20: the two company tables computed after line 172 show records
    dated 2020 or later only; every row of the top-10 table carries the
    selected industry, and the table has at most ten rows. *)
Theorem company_tables_since_2020 parse_date (file : option DataFrame) (df : DataFrame)
        (industry_filter country_filter : option string) :
  load_data parse_date file = inr df ->
  exists env,
    dashboard parse_date df industry_filter country_filter = inr env /\
    (forall r, In r (Env.top_companies_data env) ->
       exists x, In x df /\ key4 x = Some (fst (fst (snd r))) /\
                 exists y, year_of (Date x) = Some y /\ (2020 <= y)%Z) /\
    (List.length (Env.top_companies_filtered env) <= 10)%nat /\
    (forall r, In r (Env.top_companies_filtered env) ->
       industry_filter = Some (snd (key_of r)) /\
       exists x, In x df /\ Company x = Some (fst (key_of r)) /\
                 Industry x = industry_filter /\
                 exists y, year_of (Date x) = Some y /\ (2020 <= y)%Z).
Proof.
  intros E. apply load_data_dates_parsed in E.
  eexists. split; [apply (dashboard_parsed parse_date _ _ E) |]. simpl.
  split; [| split].
  - intros r Hr. unfold top_companies_data in Hr.
    apply in_map_iff in Hr as ([n [k s]] & <- & Hr). simpl.
    apply In_head, sort_values_desc_In, In_reset_index in Hr. simpl in Hr.
    apply group_has_row in Hr as (x & Hx & Hk).
    apply filter_In in Hx as [Hx Hy]. exists x. repeat split; auto.
    now apply year_ge_2020.
  - unfold top_companies_filtered, head. apply firstn_le_length.
  - intros [n [[co ind] s]] Hr. unfold key_of; simpl.
    unfold top_companies_filtered in Hr. rewrite mask_rows_map in Hr.
    apply In_head, sort_values_desc_In, In_reset_index in Hr. simpl in Hr.
    apply group_has_row in Hr as (x & Hx & Hk).
    apply filter_In in Hx as [Hx Hi]. apply filter_In in Hx as [Hx Hy].
    unfold key2 in Hk.
    destruct (Company x) as [a |] eqn:Ea; [| discriminate].
    destruct (Industry x) as [b |] eqn:Eb; [| discriminate].
    injection Hk as -> ->.
    apply eq_cell_true in Hi as (s' & [= <-] & Hf).
    split; [exact Hf |]. exists x. repeat split; auto.
    + congruence.
    + now apply year_ge_2020.
Qed.

(** ** The tables do not depend on the order of the records *)

Section GroupOrder.

Context {K : Type} `{KeyOk K}.
Variables (key : Row -> option K) (val : Row -> option Q).

Lemma klt_irrefl (k : K) : ~ klt k k.
Proof.
  unfold klt. rewrite (proj2 (kcompare_eq k k) eq_refl). discriminate.
Qed.

Lemma klt_asym (a b : K) : klt a b -> klt b a -> False.
Proof.
  intros Hab Hba. apply (klt_irrefl (k := a)).
  unfold klt in *. eapply kcompare_trans; eauto.
Qed.

(** Two tables in strictly ascending key order with the same keys list
    their keys in the same order. *)
Lemma keys_ascending_same_keys (g g' : Series K) :
  keys_ascending fst g -> keys_ascending fst g' ->
  (forall k, In k (map fst g) <-> In k (map fst g')) ->
  map fst g = map fst g'.
Proof.
  unfold keys_ascending. intros Hg. revert g'.
  induction Hg as [| [k s] g Hg IH Hk]; intros g' Hg' Hkeys.
  - destruct g' as [| [k' s'] g']; [reflexivity |].
    destruct (proj2 (Hkeys k')); simpl; auto.
  - destruct Hg' as [| [k' s'] g' Hg' Hk'].
    + destruct (proj1 (Hkeys k)); simpl; auto.
    + simpl in *. rewrite Forall_forall in Hk, Hk'.
      assert (Ekk : k = k').
      { destruct (proj1 (Hkeys k) (or_introl eq_refl)) as [E | Hin1]; [auto |].
        destruct (proj2 (Hkeys k') (or_introl eq_refl)) as [E | Hin2]; [auto |].
        apply in_map_iff in Hin1 as (e1 & <- & Hin1).
        apply in_map_iff in Hin2 as (e2 & <- & Hin2).
        exfalso. exact (klt_asym (Hk _ Hin2) (Hk' _ Hin1)). }
      subst k'. f_equal. apply IH; [exact Hg' |].
      intros k0. split; intros Hin.
      * destruct (proj1 (Hkeys k0) (or_intror Hin)) as [E | Hin']; [| exact Hin'].
        subst k0. apply in_map_iff in Hin as (e & <- & Hin).
        exfalso. exact (klt_irrefl (Hk _ Hin)).
      * destruct (proj2 (Hkeys k0) (or_intror Hin)) as [E | Hin']; [| exact Hin'].
        subst k0. apply in_map_iff in Hin as (e & <- & Hin).
        exfalso. exact (klt_irrefl (Hk' _ Hin)).
Qed.

Lemma series_sum_filter_perm (p : Row -> bool) (df df' : DataFrame) :
  Permutation df df' ->
  (series_sum (map val (filter p df)) == series_sum (map val (filter p df')))%Q.
Proof.
  unfold series_sum.
  induction 1 as [| x l l' _ IH | x y l | l1 l2 l3 _ IH1 _ IH2]; simpl.
  - reflexivity.
  - destruct (p x); simpl; [| exact IH]. destruct (val x); simpl; [| exact IH].
    now rewrite IH.
  - destruct (p x), (p y); simpl; try reflexivity;
      destruct (val x), (val y); simpl; try reflexivity. ring.
  - now rewrite IH1.
Qed.

Lemma rows_of_same_keys (g g' : Series K) :
  map fst g = map fst g' ->
  (forall k s s', In (k, s) g -> In (k, s') g' -> (s == s')%Q) ->
  NoDup (map fst g) ->
  Forall2 (fun a b => fst a = fst b /\ (snd a == snd b)%Q) g g'.
Proof.
  revert g'. induction g as [| [k s] g IH]; intros [| [k' s'] g'] E Hs Hnd;
    simpl in E; try discriminate; [constructor |].
  injection E as <- E. inversion Hnd as [| ? ? Hk Hnd']; subst.
  constructor.
  - simpl. split; [reflexivity |]. apply (Hs k); simpl; auto.
  - apply IH; [exact E | | exact Hnd'].
    intros k0 s0 s0' Hin Hin'. apply (Hs k0); simpl; auto.
Qed.

(** The grouped table of a frame and of a rearrangement of it have the
    same keys and equal sums. *)
Lemma groupby_sum_perm (df df' : DataFrame) :
  Permutation df df' ->
  Forall2 (fun a b => fst a = fst b /\ (snd a == snd b)%Q)
          (groupby_sum (map key df) (map val df))
          (groupby_sum (map key df') (map val df')).
Proof.
  intros P.
  set (g := groupby_sum (map key df) (map val df)).
  set (g' := groupby_sum (map key df') (map val df')).
  assert (Hg : keys_ascending fst g) by apply groupby_sum_sorted.
  assert (Hg' : keys_ascending fst g') by apply groupby_sum_sorted.
  assert (Hkeys : forall k, In k (map fst g) <-> In k (map fst g')).
  { assert (G : forall d d', Permutation d d' -> forall k,
                In k (map fst (groupby_sum (map key d) (map val d))) ->
                In k (map fst (groupby_sum (map key d') (map val d')))).
    { intros d d' Pd k Hin. apply in_map_iff in Hin as ([k0 s] & Hk & Hin).
      simpl in Hk. subst k0.
      apply (groupby_sum_groups key val d k) in Hin as [Hin _].
      apply (Permutation_in _ (Permutation_map key Pd)) in Hin.
      apply (groupby_sum_groups key val d' k) in Hin as (s' & Hin).
      apply in_map_iff. exists (k, s'). auto. }
    intros k. split; apply G; [exact P | now symmetry]. }
  apply rows_of_same_keys.
  - now apply keys_ascending_same_keys.
  - intros k s s' Hin Hin'.
    apply (groupby_sum_groups key val df k) in Hin as [_ ->].
    apply (groupby_sum_groups key val df' k) in Hin' as [_ ->].
    now apply series_sum_filter_perm.
  - now apply keys_ascending_NoDup.
Qed.

End GroupOrder.

Lemma reset_index_related {K : Type} (g g' : Series K) :
  Forall2 (fun a b => fst a = fst b /\ (snd a == snd b)%Q) g g' ->
  Forall2 same_row (reset_index g) (reset_index g').
Proof.
  intros H. unfold reset_index. rewrite <- (Forall2_length H).
  generalize 0%nat. induction H as [| [k s] [k' s'] g g' [Hk Hs] _ IH]; intros n; simpl.
  - constructor.
  - constructor; [| apply IH]. repeat split; auto.
Qed.

(** ** The sorted views follow the grouped table (C3) *)





Section ViewsOfRearrangedData.

Context {K : Type} `{KeyOk K}.
Variable key : Row -> option K.



End ViewsOfRearrangedData.



(** X21: the all-countries view does not depend on the order of the
    records: for a rearranged dataset it has the same rows in the same
    order, with the same index labels and countries and with equal
    values. *)
Theorem country_layoffs_order_free (df df' : DataFrame) :
  Permutation df df' ->
  Forall2 same_row (country_layoffs df) (country_layoffs df').
Proof.
  intros P. unfold country_layoffs.
  apply sort_values_desc_related.
  - intros a b (_ & _ & Hv). exact Hv.
  - apply reset_index_related. now apply groupby_sum_perm.
Qed.

End Dashboard.

(** * The insertion sort of numpy is such a sort *)

Section InsertionSort.

Variables (A : Type) (val : A -> Q).

Lemma insert_asc_perm (x : A) (l : list A) :
  Permutation (x :: l) (insert_asc val x l).
Proof.
  induction l as [| y l IH]; simpl; [reflexivity |].
  destruct (val x ?= val y)%Q; try reflexivity;
    (rewrite perm_swap; now apply perm_skip).
Qed.

Lemma insert_asc_sorted (x : A) (l : list A) :
  ascending val l -> ascending val (insert_asc val x l).
Proof.
  unfold ascending. induction 1 as [| y l Hl IH Hy]; simpl.
  - repeat constructor.
  - destruct (val x ?= val y)%Q eqn:C.
    + constructor; [exact IH |].
      apply (Permutation_Forall (insert_asc_perm x l)).
      constructor; [| exact Hy].
      apply Qeq_alt in C. rewrite C. apply Qle_refl.
    + constructor; [constructor; assumption |].
      apply Qlt_alt in C. constructor; [now apply Qlt_le_weak |].
      revert Hy. apply Forall_impl. intros b Hb.
      apply Qle_trans with (val y); [now apply Qlt_le_weak | exact Hb].
    + constructor; [exact IH |].
      apply (Permutation_Forall (insert_asc_perm x l)).
      constructor; [| exact Hy].
      apply Qgt_alt in C. now apply Qlt_le_weak.
Qed.

Lemma insertion_sort_fold (l : list A) :
  insertion_sort val l = fold_right (insert_asc val) [] (rev l).
Proof. exact (eq_sym (fold_left_rev_right (insert_asc val) l [])). Qed.

Lemma insertion_sort_perm (l : list A) : Permutation l (insertion_sort val l).
Proof.
  rewrite insertion_sort_fold, (Permutation_rev l) at 1.
  induction (rev l) as [| x l' IH]; simpl; [reflexivity |].
  rewrite <- insert_asc_perm. now apply perm_skip.
Qed.

Lemma insertion_sort_sorted (l : list A) : ascending val (insertion_sort val l).
Proof.
  rewrite insertion_sort_fold.
  induction (rev l) as [| x l' IH]; simpl; [constructor | now apply insert_asc_sorted].
Qed.

Variable Rel : A -> A -> Prop.
Hypothesis Rel_val : forall a b, Rel a b -> (val a == val b)%Q.

Lemma insert_asc_related (x x' : A) (l l' : list A) :
  Rel x x' -> Forall2 Rel l l' ->
  Forall2 Rel (insert_asc val x l) (insert_asc val x' l').
Proof.
  intros Hx. induction 1 as [| y y' l l' Hy Hl IH]; simpl.
  - repeat constructor. exact Hx.
  - rewrite (Qcompare_comp _ _ (Rel_val Hx) _ _ (Rel_val Hy)).
    destruct (val x' ?= val y')%Q; repeat constructor; auto.
Qed.

Lemma insertion_sort_related (l l' : list A) :
  Forall2 Rel l l' -> Forall2 Rel (insertion_sort val l) (insertion_sort val l').
Proof.
  intros H. rewrite !insertion_sort_fold.
  apply Forall2_rev_related in H.
  induction H; simpl; [constructor | now apply insert_asc_related].
Qed.

End InsertionSort.

Lemma combine_seq_nth_error (vals : list Q) :
  forall s p, In p (combine (seq s (List.length vals)) vals) ->
              nth_error vals (fst p - s) = Some (snd p) /\ (s <= fst p)%nat.
Proof.
  induction vals as [| v vals IH]; intros s p Hin; simpl in *; [contradiction |].
  destruct Hin as [<- | Hin]; simpl.
  - rewrite Nat.sub_diag. auto.
  - destruct (IH _ _ Hin) as [Hn Hs]. split; [| lia].
    replace (fst p - s)%nat with (S (fst p - S s)) by lia. exact Hn.
Qed.

Lemma take_positions (vals : list Q) (ps : list (nat * Q)) :
  Forall (fun p => nth_error vals (fst p) = Some (snd p)) ps ->
  take vals (map fst ps) = map snd ps.
Proof.
  unfold take. induction 1 as [| p ps Hp _ IH]; simpl; [reflexivity |].
  now rewrite Hp, IH.
Qed.

Lemma map_fst_combine_seq (vals : list Q) (s : nat) :
  map fst (combine (seq s (List.length vals)) vals) = seq s (List.length vals).
Proof.
  revert s. induction vals as [| v vals IH]; intros s; simpl; [reflexivity |].
  now rewrite IH.
Qed.

Lemma insertion_argsort_perm (vals : list Q) :
  Permutation (insertion_argsort vals) (seq 0 (List.length vals)).
Proof.
  unfold insertion_argsort. rewrite <- (map_fst_combine_seq vals 0) at 2.
  apply Permutation_map. symmetry. apply insertion_sort_perm.
Qed.

Lemma insertion_argsort_sorted (vals : list Q) :
  StronglySorted Qle (take vals (insertion_argsort vals)).
Proof.
  unfold insertion_argsort.
  set (c := combine (seq 0 (List.length vals)) vals).
  rewrite take_positions.
  - apply (StronglySorted_map snd Qle). apply insertion_sort_sorted.
  - apply (Permutation_Forall (insertion_sort_perm snd c)).
    apply Forall_forall. intros p Hp.
    destruct (combine_seq_nth_error vals 0 p Hp) as [Hn _].
    now rewrite Nat.sub_0_r in Hn.
Qed.

Lemma insertion_argsort_values (vals vals' : list Q) :
  Forall2 Qeq vals vals' -> insertion_argsort vals = insertion_argsort vals'.
Proof.
  intros H. unfold insertion_argsort. rewrite <- (Forall2_length H).
  assert (Hc : Forall2 (fun a b : nat * Q => fst a = fst b /\ (snd a == snd b)%Q)
                       (combine (seq 0 (List.length vals)) vals)
                       (combine (seq 0 (List.length vals)) vals')).
  { generalize 0%nat. induction H as [| v v' l l' Hv _ IH]; intros s; simpl.
    - constructor.
    - constructor; [split; [reflexivity | exact Hv] | apply IH]. }
  apply (insertion_sort_related snd) in Hc; [| intros a b [_ Hv]; exact Hv].
  induction Hc as [| a b l l' [Hab _] _ IH]; simpl; [reflexivity |].
  now rewrite Hab, IH.
Qed.

(** The sort of the examples.  No example below shows a sorted view
    with two equal sums, so that every sort of numpy gives the tables
    they show. *)
#[export] Instance numpy_insertion_sort : NumpySort :=
  {| argsort := insertion_argsort;
     argsort_perm := insertion_argsort_perm;
     argsort_sorted := insertion_argsort_sorted;
     argsort_values := insertion_argsort_values |}.

(** * Runs on the example tables *)

Lemma normalize_country_spec_witness :
  map Country sample_file
  = [Some "India"; Some "Brazil"; Some "United States"]%string /\
  map Country (normalize_country sample_file)
  = [Some "India"; Some "Brazil"; Some "United States of America"]%string /\
  List.length (normalize_country sample_file) = List.length sample_file.
Proof.
  exact (conj eq_refl (conj eq_refl (proj1 (normalize_country_spec sample_file)))).
Defined.

Lemma load_data_fills_with_mean_witness :
  load_data iso_date (Some sample_file) = inr sample_df /\
  In (Some 10%Q) (map (num_cell ColLaidOff) sample_file) /\
  exists m : Q,
    (m * inject_Z (Z.of_nat (List.length (dropna (map (num_cell ColLaidOff) sample_file))))
     == Qsum (dropna (map (num_cell ColLaidOff) sample_file)))%Q /\
    Forall2 (fun r r' => num_cell ColLaidOff r' = match num_cell ColLaidOff r with
                                                   | Some x => Some x
                                                   | None => Some m
                                                   end) sample_file sample_df /\
    Forall (fun r' => num_cell ColLaidOff r' <> None) sample_df.
Proof.
  assert (H1 : load_data iso_date (Some sample_file) = inr sample_df) by reflexivity.
  assert (H2 : In (Some 10%Q) (map (num_cell ColLaidOff) sample_file))
    by (simpl; auto).
  exact (conj H1 (conj H2 (load_data_fills_with_mean iso_date sample_file ColLaidOff 10 H1 H2))).
Defined.

(** C1 as stated fails: a file whose Laid_Off_Count column is entirely
    missing is loaded with that column still missing. *)
Lemma load_data_missing_counterexample :
  exists df, load_data iso_date (Some missing_file) = inr df /\
             ~ Forall (fun r => Laid_Off_Count r <> None) df.
Proof.
  exists missing_df. split; [reflexivity |].
  intros H. inversion H as [| r l Hr _]. apply Hr. reflexivity.
Qed.

Lemma mean_fill_needs_present_value_witness :
  load_data iso_date (Some missing_file) = inr missing_df /\
  Forall (fun r => num_cell ColLaidOff r = None) missing_file /\
  mean (map (num_cell ColLaidOff) missing_file) = None /\
  Forall (fun r' => num_cell ColLaidOff r' = None) missing_df /\
  List.length missing_df = List.length missing_file.
Proof.
  assert (H1 : load_data iso_date (Some missing_file) = inr missing_df) by reflexivity.
  assert (H2 : Forall (fun r => num_cell ColLaidOff r = None) missing_file)
    by (repeat constructor).
  exact (conj H1 (conj H2
           (proj1 (mean_fill_needs_present_value iso_date missing_file ColLaidOff H1) H2))).
Defined.



Lemma top_companies_data_percentage_witness :
  sums_fit_int64 (map Laid_Off_Count sample_df) /\
  ~ (Qsum (map data_count (top_companies_data sample_df)) == 0)%Q /\
  (List.length (top_companies_data sample_df) <= 50)%nat /\
  Forall (fun r => fits_int64 (data_count r)) (top_companies_data sample_df) /\
  fits_int64 (Qsum (map data_count (top_companies_data sample_df))) /\
  exists ps : list Q,
    map data_percentage (top_companies_data sample_df) = map Finite ps /\
    Forall2 (fun r p =>
               p = (data_count r
                    / Qsum (map data_count (top_companies_data sample_df)) * 100)%Q)
            (top_companies_data sample_df) ps /\
    (Qsum ps == 100)%Q.
Proof.
  assert (H0 : sums_fit_int64 (map Laid_Off_Count sample_df))
    by (vm_compute; reflexivity).
  assert (H : ~ (Qsum (map data_count (top_companies_data sample_df)) == 0)%Q)
    by (vm_compute; discriminate).
  exact (conj H0 (conj H (top_companies_data_percentage sample_df H0 H))).
Defined.

(** C4 as stated fails: the view of a dataset whose only company laid
    off nobody has one row, and its Percentage, 0/0, is NaN; the sum of
    the column, which skips NaN, is 0 and not 100. *)
Lemma percentage_zero_total_counterexample :
  exists env memo,
    run iso_date (Some zero_file) (mkWidgets 0 0) None = inr (env, memo) /\
    sums_fit_int64 (map Laid_Off_Count (Env.df env)) /\
    List.length (Env.top_companies_data env) = 1%nat /\
    map data_percentage (Env.top_companies_data env) = [NaN] /\
    float_sum (map data_percentage (Env.top_companies_data env)) = Finite 0.
Proof.
  eexists. eexists. split; [vm_compute; reflexivity |].
  vm_compute. repeat split.
Qed.

Lemma filters_never_raise_witness :
  load_data iso_date (Some north_file) = inr north_df /\
  exists env,
    dashboard iso_date north_df (Some "Retail"%string) (Some "India"%string) = inr env /\
    Env.df_time_series env =
    yearly_sums (filter (fun r => eq_cell (Industry r) (Some "Retail"%string)
                                  && eq_cell (Country r) (Some "India"%string)) north_df).
Proof.
  assert (H : load_data iso_date (Some north_file) = inr north_df) by reflexivity.
  exact (conj H (filters_never_raise iso_date (Some north_file)
                   (Some "Retail"%string) (Some "India"%string) H)).
Defined.

(** C5 as stated fails: "Canada" is not in the list of the country
    select box, and the script run with it raises nothing: the yearly
    view shows the Canadian records. *)
Lemma invalid_filter_counterexample :
  existsb (String.eqb "Canada") country_options = false /\
  exists env,
    dashboard iso_date north_df (Some "Retail"%string) (Some "Canada"%string) = inr env /\
    Env.df_time_series env = [(0%nat, (2022%Z, 4%Q))].
Proof.
  split; [reflexivity |]. eexists. split; reflexivity.
Qed.

Lemma empty_slice_views_witness :
  load_data iso_date (Some north_file) = inr north_df /\
  exists env,
    dashboard iso_date north_df (Some "Finance"%string) (Some "India"%string) = inr env /\
    (Forall (fun r => eq_cell (Industry r) (Some "Finance"%string)
                      && eq_cell (Country r) (Some "India"%string) = false) north_df ->
     Env.df_time_series env = []) /\
    (Forall (fun r => year_ge (year_of (Date r)) 2020
                      && eq_cell (Industry r) (Some "Finance"%string) = false) north_df ->
     Env.top_companies_filtered env = []).
Proof.
  assert (H : load_data iso_date (Some north_file) = inr north_df) by reflexivity.
  exact (conj H (empty_slice_views iso_date (Some north_file)
                   (Some "Finance"%string) (Some "India"%string) H)).
Defined.

(** C6 as stated fails: Retail is an industry of the dataset and India
    is in the list of the country select box, no record is both, and the
    top-10 view of the selected industry still has its two rows. *)
Lemma empty_slice_counterexample :
  exists env memo,
    run iso_date (Some north_file) (mkWidgets 0 1) None = inr (env, memo) /\
    Env.industry_filter env = Some "Retail"%string /\
    Env.country_filter env = Some "India"%string /\
    df_filtered (Env.df env) (Env.industry_filter env) (Env.country_filter env) = [] /\
    Env.df_time_series env = [] /\
    map snd (Env.top_companies_filtered env)
    = [("Acme"%string, "Retail"%string, 10%Q); ("Maple"%string, "Retail"%string, 4%Q)].
Proof.
  eexists. eexists. split; [vm_compute; reflexivity |].
  vm_compute. repeat split.
Qed.

Lemma dashboard_keeps_dataset_witness :
  load_data iso_date (Some sample_file) = inr sample_df /\
  exists env,
    dashboard iso_date sample_df (Some "Retail"%string) (Some "India"%string) = inr env /\
    Env.df env = sample_df /\
    Env.df_filtered env = since_2020_rows sample_df /\
    Env.stage_layoffs env = stage_layoffs sample_df.
Proof.
  assert (H : load_data iso_date (Some sample_file) = inr sample_df) by reflexivity.
  exact (conj H (dashboard_keeps_dataset iso_date (Some sample_file)
                   (Some "Retail"%string) (Some "India"%string) H)).
Defined.

Lemma load_data_repeatable_witness :
  load_data iso_date (Some sample_file) = inr sample_df /\
  cached_load_data iso_date None (Some sample_file) = inr (sample_df, Some sample_df) /\
  cached_load_data iso_date (Some sample_df) (Some sample_file)
  = inr (sample_df, Some sample_df) /\
  exists envs,
    session iso_date (Some sample_file) [mkWidgets 0 0; mkWidgets 1 1] None
    = inr (envs, Some sample_df) /\
    List.length envs = 2%nat /\
    Forall (fun env => Env.df env = sample_df) envs.
Proof.
  assert (H : load_data iso_date (Some sample_file) = inr sample_df) by reflexivity.
  exact (conj H (load_data_repeatable iso_date (Some sample_file)
                   [mkWidgets 0 0; mkWidgets 1 1] H)).
Defined.

(** * The further properties on the example tables *)

Lemma load_data_dates_witness :
  load_data iso_date (Some sample_file) = inr sample_df /\
  Forall2 (fun r r' =>
             date_parsed (Date r') = true /\
             (Date r = NaT -> Date r' = NaT) /\
             (forall s, Date r = DateStr s ->
                        exists t, iso_date s = Some t /\ Date r' = DateTime t))
          sample_file sample_df.
Proof.
  assert (H : load_data iso_date (Some sample_file) = inr sample_df) by reflexivity.
  exact (conj H (load_data_dates iso_date sample_file H)).
Defined.

Lemma load_data_reload_witness :
  load_data iso_date (Some sample_file) = inr sample_df /\
  load_data iso_date (Some sample_df) = inr sample_df.
Proof.
  assert (H : load_data iso_date (Some sample_file) = inr sample_df) by reflexivity.
  exact (conj H (load_data_reload iso_date sample_file H)).
Defined.

Lemma load_data_keeps_mean_witness :
  load_data iso_date (Some sample_file) = inr sample_df /\
  In (Some 10%Q) (map (num_cell ColLaidOff) sample_file) /\
  exists m m' : Q,
    mean (map (num_cell ColLaidOff) sample_file) = Some m /\
    mean (map (num_cell ColLaidOff) sample_df) = Some m' /\
    (m' == m)%Q.
Proof.
  assert (H1 : load_data iso_date (Some sample_file) = inr sample_df) by reflexivity.
  assert (H2 : In (Some 10%Q) (map (num_cell ColLaidOff) sample_file))
    by (simpl; auto).
  exact (conj H1 (conj H2 (load_data_keeps_mean iso_date sample_file ColLaidOff 10 H1 H2))).
Defined.

Lemma run_filters_from_the_boxes_witness :
  exists env memo,
    run iso_date (Some sample_file) (mkWidgets 1 1) None = inr (env, memo) /\
    Env.industry_filter env = Some "Finance"%string /\
    Env.country_filter env = Some "India"%string /\
    NoDup (unique (map Industry (Env.df env))) /\
    (forall c, In c (unique (map Industry (Env.df env))) <->
               In c (map Industry (Env.df env))) /\
    (Env.industry_filter env = None \/
     In (Env.industry_filter env) (map Industry (Env.df env))) /\
    (Env.country_filter env = None \/
     exists c, In c country_options /\ Env.country_filter env = Some c).
Proof.
  eexists. eexists. split; [vm_compute; reflexivity |].
  split; [reflexivity |]. split; [reflexivity |].
  apply (run_filters_from_the_boxes iso_date (Some sample_file) (mkWidgets 1 1)
           (memo := Some sample_df)).
  vm_compute. reflexivity.
Defined.

Lemma dashboard_needs_parsed_dates_witness :
  Exists (fun r => exists s, Date r = DateStr s) sample_file /\
  dashboard iso_date sample_file (Some "Retail"%string) (Some "India"%string)
  = inl AttributeError.
Proof.
  assert (H : Exists (fun r => exists s, Date r = DateStr s) sample_file).
  { apply Exists_cons_hd. eexists. reflexivity. }
  exact (conj H (dashboard_needs_parsed_dates iso_date
                   (Some "Retail"%string) (Some "India"%string) H)).
Defined.

Lemma run_on_cache_ignores_file_witness :
  load_data iso_date (Some sample_file) = inr sample_df /\
  exists env,
    run iso_date None (mkWidgets 0 0) (Some sample_df) = inr (env, Some sample_df) /\
    Env.df env = sample_df /\
    load_data iso_date None = inl FileNotFoundError.
Proof.
  assert (H : load_data iso_date (Some sample_file) = inr sample_df) by reflexivity.
  exact (conj H (run_on_cache_ignores_file iso_date (Some sample_file) (mkWidgets 0 0) H)).
Defined.

Lemma loaded_dataset_has_one_spelling_witness :
  load_data iso_date (Some sample_file) = inr sample_df /\
  In (Some "United States"%string) (map Country sample_file) /\
  Forall (fun r => Country r <> Some "United States"%string) sample_df /\
  ~ In "United States"%string (map key_of (country_layoffs sample_df)) /\
  ~ In "United States"%string (map key_of (top_countries sample_df)).
Proof.
  assert (H : load_data iso_date (Some sample_file) = inr sample_df) by reflexivity.
  assert (H2 : In (Some "United States"%string) (map Country sample_file))
    by (simpl; auto).
  exact (conj H (conj H2 (loaded_dataset_has_one_spelling iso_date (Some sample_file) H))).
Defined.

Lemma top_industries_recent_rows_witness :
  load_data iso_date (Some sample_file) = inr sample_df /\
  exists env,
    dashboard iso_date sample_df (Some "Retail"%string) (Some "India"%string) = inr env /\
    (List.length (Env.top_industries_recent env) <= 5)%nat /\
    forall r, In r (Env.top_industries_recent env) ->
              key_of r <> "Other"%string /\
              exists x, In x sample_df /\ Industry x = Some (key_of r) /\
                        (year_of (Date x) = Some 2022%Z \/ year_of (Date x) = Some 2023%Z).
Proof.
  assert (H : load_data iso_date (Some sample_file) = inr sample_df) by reflexivity.
  exact (conj H (top_industries_recent_rows iso_date (Some sample_file)
                   (Some "Retail"%string) (Some "India"%string) H)).
Defined.

Lemma country_layoffs_total_witness :
  sums_fit_int64 (map Laid_Off_Count sample_df) /\
  fits_int64 (Qsum (map value_of (country_layoffs sample_df))) /\
  (Qsum (map value_of (country_layoffs sample_df))
   == series_sum (map Laid_Off_Count (filter (fun r => has_key (Country r)) sample_df)))%Q.
Proof.
  assert (H : sums_fit_int64 (map Laid_Off_Count sample_df))
    by (vm_compute; reflexivity).
  exact (conj H (country_layoffs_total sample_df H)).
Defined.

Lemma top_companies_data_percentage_bounds_witness :
  Forall (fun r => nonneg_cell (Laid_Off_Count r)) sample_df /\
  sums_fit_int64 (map Laid_Off_Count sample_df) /\
  fits_int64 (Qsum (map data_count (top_companies_data sample_df))) /\
  Forall (fun r => match data_percentage r with
                   | Finite p => (0 <= p)%Q /\ (p <= 100)%Q
                   | Inf _ => False
                   | NaN => (Qsum (map data_count (top_companies_data sample_df)) == 0)%Q
                   end)
         (top_companies_data sample_df).
Proof.
  assert (H : Forall (fun r => nonneg_cell (Laid_Off_Count r)) sample_df).
  { repeat constructor; vm_compute; discriminate. }
  assert (H0 : sums_fit_int64 (map Laid_Off_Count sample_df))
    by (vm_compute; reflexivity).
  exact (conj H (conj H0 (top_companies_data_percentage_bounds H H0))).
Defined.

Lemma df_time_series_by_year_witness :
  load_data iso_date (Some sample_file) = inr sample_df /\
  exists env,
    dashboard iso_date sample_df (Some "Retail"%string) (Some "India"%string) = inr env /\
    StronglySorted (fun a b => (key_of a < key_of b)%Z) (Env.df_time_series env) /\
    (forall y, In y (map key_of (Env.df_time_series env)) <->
               exists x,
                 In x (df_filtered sample_df (Some "Retail"%string) (Some "India"%string)) /\
                 year_of (Date x) = Some y) /\
    (sums_fit_int64 (map Laid_Off_Count sample_df) ->
     forall r, In r (Env.df_time_series env) ->
       fits_int64 (value_of r) /\
       (value_of r
        == series_sum
             (map Laid_Off_Count
                (filter (fun x => year_is (key_of r) (Date x))
                   (df_filtered sample_df (Some "Retail"%string) (Some "India"%string)))))%Q).
Proof.
  assert (H : load_data iso_date (Some sample_file) = inr sample_df) by reflexivity.
  exact (conj H (df_time_series_by_year iso_date (Some sample_file)
                   (Some "Retail"%string) (Some "India"%string) H)).
Defined.

Lemma company_tables_since_2020_witness :
  load_data iso_date (Some sample_file) = inr sample_df /\
  exists env,
    dashboard iso_date sample_df (Some "Retail"%string) (Some "India"%string) = inr env /\
    (forall r, In r (Env.top_companies_data env) ->
       exists x, In x sample_df /\ key4 x = Some (fst (fst (snd r))) /\
                 exists y, year_of (Date x) = Some y /\ (2020 <= y)%Z) /\
    (List.length (Env.top_companies_filtered env) <= 10)%nat /\
    (forall r, In r (Env.top_companies_filtered env) ->
       Some "Retail"%string = Some (snd (key_of r)) /\
       exists x, In x sample_df /\ Company x = Some (fst (key_of r)) /\
                 Industry x = Some "Retail"%string /\
                 exists y, year_of (Date x) = Some y /\ (2020 <= y)%Z).
Proof.
  assert (H : load_data iso_date (Some sample_file) = inr sample_df) by reflexivity.
  exact (conj H (company_tables_since_2020 iso_date (Some sample_file)
                   (Some "Retail"%string) (Some "India"%string) H)).
Defined.

Lemma country_layoffs_order_free_witness :
  Permutation sample_df (rev sample_df) /\
  Forall2 same_row (country_layoffs sample_df) (country_layoffs (rev sample_df)).
Proof.
  assert (H : Permutation sample_df (rev sample_df)) by apply Permutation_rev.
  exact (conj H (country_layoffs_order_free H)).
Defined.
